(** * SVGSkin: adaptive texture resolution of a vector skin

    A shallow embedding of [src/SVGSkin.js].  The class keeps a GPU texture
    of an SVG costume, rasterised at a power-of-two scale that follows the
    display scale requested by [getTexture].

    Numbers.  A JavaScript number is modelled as [NaN] or a finite value
    held as an exact rational; rounding and the infinities are outside the
    model.  The comparison operators are the JavaScript ones: every ordered
    comparison with [NaN] is false and [NaN !== x] is true.

    Asynchrony.  [_svgRenderer._draw(scale, onFinish)] queues a request; a
    later [finish] step lets the renderer paint a bitmap on its canvas and
    run the queued callback.  The two closures of the source are the two
    constructors of [Callback], each holding the variables it captures. *)

From Stdlib Require Import ZArith QArith Qabs Lia Lqa List Bool String.
Import ListNotations.
Local Open Scope Q_scope.

(** ** Numbers *)

Inductive number : Type :=
| NaN
| Num (q : Q).

Definition point : Type := (number * number)%type.

Module Number.

Definition of_Z (z : Z) : number := Num (inject_Z z).

(** [a < b] *)
Definition ltb (a b : number) : bool :=
  match a, b with
  | Num x, Num y => negb (Qle_bool y x)
  | _, _ => false
  end.

(** [a <= b] *)
Definition leb (a b : number) : bool :=
  match a, b with
  | Num x, Num y => Qle_bool x y
  | _, _ => false
  end.

(** [a >= b] *)
Definition geb (a b : number) : bool := leb b a.

(** [a === b] *)
Definition strict_eq (a b : number) : bool :=
  match a, b with
  | Num x, Num y => Qeq_bool x y
  | _, _ => false
  end.

(** [a !== b] *)
Definition strict_ne (a b : number) : bool := negb (strict_eq a b).

Definition mul (a b : number) : number :=
  match a, b with
  | Num x, Num y => Num (x * y)
  | _, _ => NaN
  end.

Definition sub (a b : number) : number :=
  match a, b with
  | Num x, Num y => Num (x - y)
  | _, _ => NaN
  end.

(** [a / b]; the only divisor in the source is the literal 100, a zero
    divisor (an infinity or NaN in JavaScript) is mapped to [NaN]. *)
Definition div (a b : number) : number :=
  match a, b with
  | Num x, Num y => if Qeq_bool y 0 then NaN else Num (x / y)
  | _, _ => NaN
  end.

Definition Math_abs (a : number) : number :=
  match a with
  | Num x => Num (Qabs x)
  | NaN => NaN
  end.

Definition Math_max (a b : number) : number :=
  match a, b with
  | Num x, Num y => Num (if Qle_bool x y then y else x)
  | _, _ => NaN
  end.

Definition Math_min (a b : number) : number :=
  match a, b with
  | Num x, Num y => Num (if Qle_bool x y then x else y)
  | _, _ => NaN
  end.

End Number.

Import Number.

(** ** Collaborators *)

(** The pixels read back from the canvas: [context.getImageData]. *)
Record ImageData : Type := {
  width : Z;
  height : Z;
  data : list Z
}.

(** The state of the [SvgRenderer] this class reads: the measurements of the
    loaded SVG and the canvas it draws on. *)
Record SvgRenderer : Type := {
  svg_size : point;
  svg_viewOffset : point;
  canvas : ImageData
}.

(** The result of a call that can throw; both carry the state left behind. *)
Inductive completion (A : Type) : Type :=
| Normal (a : A)
| Throw (a : A).
Arguments Normal {A} a.
Arguments Throw {A} a.

(** The closures handed to [_draw]: the one of [setSVG] captures
    [rotationCenter], the one of [getTexture] captures [newScale]. *)
Inductive Callback : Type :=
| SetSVG_onFinish (rotationCenter : option point)
| GetTexture_onFinish (newScale : number).

Record DrawRequest : Type := {
  draw_scale : number;
  draw_onFinish : Callback
}.

(** Calls made on the collaborators, newest first. *)
Inductive Effect : Type :=
| SvgRenderer_draw (scale : number)
| Twgl_createTexture (src : ImageData)
| Gl_texImage2D (textureData : ImageData)
| Gl_deleteTexture
| Silhouette_update (textureData : ImageData)
| Super_setRotationCenter (x y : number)
| Super_dispose
| Emit_WasAltered.

(** ** The skin *)

(** [_texture] is the texture object, represented by the pixels last
    uploaded into it ([None] is [null]); [_silhouette] is the bitmap the
    silhouette was last built from; [_rotationCenter] belongs to the base
    class; [pending] holds the draw requests not yet finished. *)
Record SVGSkin : Type := {
  _svgRenderer : SvgRenderer;
  _texture : option ImageData;
  _textureScale : number;
  _maxTextureScale : number;
  size : point;
  _viewOffset : point;
  _rawRotationCenter : point;
  _rotationCenter : point;
  _silhouette : option ImageData;
  pending : list DrawRequest;
  effects : list Effect
}.

Definition MAX_TEXTURE_DIMENSION : number := Num 2048.

Definition emptyCanvas : ImageData := {| width := 0; height := 0; data := [] |}.

(** [constructor (id, renderer)] *)
Definition constructor : SVGSkin := {|
  _svgRenderer :=
    {| svg_size := (Num 0, Num 0); svg_viewOffset := (Num 0, Num 0);
       canvas := emptyCanvas |};
  _texture := None;
  _textureScale := Num 1;
  _maxTextureScale := Num 0;
  size := (Num 0, Num 0);
  _viewOffset := (Num 0, Num 0);
  _rawRotationCenter := (NaN, NaN);
  _rotationCenter := (Num 0, Num 0);
  _silhouette := None;
  pending := [];
  effects := []
|}.

Section Assignments.

Variable this : SVGSkin.

Definition set_svgRenderer (r : SvgRenderer) : SVGSkin :=
  {| _svgRenderer := r; _texture := _texture this;
     _textureScale := _textureScale this;
     _maxTextureScale := _maxTextureScale this; size := size this;
     _viewOffset := _viewOffset this;
     _rawRotationCenter := _rawRotationCenter this;
     _rotationCenter := _rotationCenter this;
     _silhouette := _silhouette this; pending := pending this;
     effects := effects this |}.

Definition set_texture (t : option ImageData) : SVGSkin :=
  {| _svgRenderer := _svgRenderer this; _texture := t;
     _textureScale := _textureScale this;
     _maxTextureScale := _maxTextureScale this; size := size this;
     _viewOffset := _viewOffset this;
     _rawRotationCenter := _rawRotationCenter this;
     _rotationCenter := _rotationCenter this;
     _silhouette := _silhouette this; pending := pending this;
     effects := effects this |}.

Definition set_textureScale (n : number) : SVGSkin :=
  {| _svgRenderer := _svgRenderer this; _texture := _texture this;
     _textureScale := n;
     _maxTextureScale := _maxTextureScale this; size := size this;
     _viewOffset := _viewOffset this;
     _rawRotationCenter := _rawRotationCenter this;
     _rotationCenter := _rotationCenter this;
     _silhouette := _silhouette this; pending := pending this;
     effects := effects this |}.

Definition set_maxTextureScale (n : number) : SVGSkin :=
  {| _svgRenderer := _svgRenderer this; _texture := _texture this;
     _textureScale := _textureScale this;
     _maxTextureScale := n; size := size this;
     _viewOffset := _viewOffset this;
     _rawRotationCenter := _rawRotationCenter this;
     _rotationCenter := _rotationCenter this;
     _silhouette := _silhouette this; pending := pending this;
     effects := effects this |}.

Definition set_size (p : point) : SVGSkin :=
  {| _svgRenderer := _svgRenderer this; _texture := _texture this;
     _textureScale := _textureScale this;
     _maxTextureScale := _maxTextureScale this; size := p;
     _viewOffset := _viewOffset this;
     _rawRotationCenter := _rawRotationCenter this;
     _rotationCenter := _rotationCenter this;
     _silhouette := _silhouette this; pending := pending this;
     effects := effects this |}.

Definition set_viewOffset (p : point) : SVGSkin :=
  {| _svgRenderer := _svgRenderer this; _texture := _texture this;
     _textureScale := _textureScale this;
     _maxTextureScale := _maxTextureScale this; size := size this;
     _viewOffset := p;
     _rawRotationCenter := _rawRotationCenter this;
     _rotationCenter := _rotationCenter this;
     _silhouette := _silhouette this; pending := pending this;
     effects := effects this |}.

Definition set_rawRotationCenter (p : point) : SVGSkin :=
  {| _svgRenderer := _svgRenderer this; _texture := _texture this;
     _textureScale := _textureScale this;
     _maxTextureScale := _maxTextureScale this; size := size this;
     _viewOffset := _viewOffset this;
     _rawRotationCenter := p;
     _rotationCenter := _rotationCenter this;
     _silhouette := _silhouette this; pending := pending this;
     effects := effects this |}.

Definition set_rotationCenter (p : point) : SVGSkin :=
  {| _svgRenderer := _svgRenderer this; _texture := _texture this;
     _textureScale := _textureScale this;
     _maxTextureScale := _maxTextureScale this; size := size this;
     _viewOffset := _viewOffset this;
     _rawRotationCenter := _rawRotationCenter this;
     _rotationCenter := p;
     _silhouette := _silhouette this; pending := pending this;
     effects := effects this |}.

Definition set_silhouette (d : option ImageData) : SVGSkin :=
  {| _svgRenderer := _svgRenderer this; _texture := _texture this;
     _textureScale := _textureScale this;
     _maxTextureScale := _maxTextureScale this; size := size this;
     _viewOffset := _viewOffset this;
     _rawRotationCenter := _rawRotationCenter this;
     _rotationCenter := _rotationCenter this;
     _silhouette := d; pending := pending this;
     effects := effects this |}.

Definition set_pending (l : list DrawRequest) : SVGSkin :=
  {| _svgRenderer := _svgRenderer this; _texture := _texture this;
     _textureScale := _textureScale this;
     _maxTextureScale := _maxTextureScale this; size := size this;
     _viewOffset := _viewOffset this;
     _rawRotationCenter := _rawRotationCenter this;
     _rotationCenter := _rotationCenter this;
     _silhouette := _silhouette this; pending := l;
     effects := effects this |}.

Definition set_effects (l : list Effect) : SVGSkin :=
  {| _svgRenderer := _svgRenderer this; _texture := _texture this;
     _textureScale := _textureScale this;
     _maxTextureScale := _maxTextureScale this; size := size this;
     _viewOffset := _viewOffset this;
     _rawRotationCenter := _rawRotationCenter this;
     _rotationCenter := _rotationCenter this;
     _silhouette := _silhouette this; pending := pending this;
     effects := l |}.

Definition perform (e : Effect) : SVGSkin :=
  set_effects (e :: effects this).

End Assignments.

(** ** Methods *)

Section Methods.

(** The renderer's parser, [SvgRenderer.loadString], and the base class's
    [calculateRotationCenter] are not part of this class. *)
Variable loadString : string -> SvgRenderer -> completion SvgRenderer.
Variable calculateRotationCenter : SVGSkin -> point.

(** Modelled from the spec: [Skin.setRotationCenter] of the base class
    (Skin.js is not among the sources) stores the view-space pair it is
    given as the base rotation center. *)
Definition Skin_setRotationCenter (x y : number) (this : SVGSkin) : SVGSkin :=
  set_rotationCenter (perform this (Super_setRotationCenter x y)) (x, y).

Definition setRotationCenter (x y : number) (this : SVGSkin) : SVGSkin :=
  if strict_ne x (fst (_rawRotationCenter this))
     || strict_ne y (snd (_rawRotationCenter this))
  then
    let this := set_rawRotationCenter this (x, snd (_rawRotationCenter this)) in
    let this := set_rawRotationCenter this (fst (_rawRotationCenter this), y) in
    Skin_setRotationCenter (sub x (fst (_viewOffset this)))
                           (sub y (snd (_viewOffset this))) this
  else this.

Definition dispose (this : SVGSkin) : SVGSkin :=
  let this :=
    match _texture this with
    | Some _ => set_texture (perform this Gl_deleteTexture) None
    | None => this
    end in
  perform this Super_dispose.

(** [this._svgRenderer._draw(scale, onFinish)] *)
Definition _draw (scale : number) (onFinish : Callback) (this : SVGSkin)
  : SVGSkin :=
  set_pending (perform this (SvgRenderer_draw scale))
    (pending this ++ [{| draw_scale := scale; draw_onFinish := onFinish |}]).

(** The [while] loop of [getTexture]; [None] when the fuel runs out. *)
Fixpoint getTexture_while (fuel : nat) (this : SVGSkin)
         (requestedScale newScale : number) : option number :=
  match fuel with
  | O => None
  | S fuel' =>
      if ltb newScale (_maxTextureScale this)
         && geb requestedScale (mul (Num 1.5) newScale)
      then getTexture_while fuel' this requestedScale (mul newScale (Num 2))
      else Some newScale
  end.

Definition getTexture (fuel : nat) (scale : option point) (this : SVGSkin)
  : option (option ImageData * SVGSkin) :=
  let scaleMax :=
    match scale with
    | Some (s0, s1) => Math_max (Math_abs s0) (Math_abs s1)
    | None => Num 100
    end in
  let requestedScale :=
    Math_min (div scaleMax (Num 100)) (_maxTextureScale this) in
  match getTexture_while fuel this requestedScale (_textureScale this) with
  | None => None
  | Some newScale =>
      let this :=
        if strict_ne (_textureScale this) newScale
        then _draw (_textureScale (set_textureScale this newScale))
                   (GetTexture_onFinish newScale)
                   (set_textureScale this newScale)
        else this in
      Some (_texture this, this)
  end.

(** [gl.bindTexture(gl.TEXTURE_2D, this._texture); gl.texImage2D(...)]:
    the upload lands in the bound texture, if there is one. *)
Definition gl_texImage2D (textureData : ImageData) (this : SVGSkin)
  : SVGSkin :=
  set_texture (perform this (Gl_texImage2D textureData))
    (match _texture this with
     | Some _ => Some textureData
     | None => None
     end).

Definition silhouette_update (textureData : ImageData) (this : SVGSkin)
  : SVGSkin :=
  set_silhouette (perform this (Silhouette_update textureData))
    (Some textureData).

(** The callback of [getTexture], run when its draw has finished. *)
Definition getTexture_onFinish (newScale : number) (this : SVGSkin)
  : SVGSkin :=
  if strict_eq (_textureScale this) newScale
  then
    let textureData := canvas (_svgRenderer this) in
    let this := gl_texImage2D textureData this in
    silhouette_update textureData this
  else this.

Definition setSVG (svgData : string) (rotationCenter : option point)
           (this : SVGSkin) : completion SVGSkin :=
  match loadString svgData (_svgRenderer this) with
  | Throw r => Throw (set_svgRenderer this r)
  | Normal r =>
      let this := set_svgRenderer this r in
      let this := set_size this (svg_size (_svgRenderer this)) in
      let this := set_viewOffset this (svg_viewOffset (_svgRenderer this)) in
      let this := set_rawRotationCenter this (NaN, NaN) in
      Normal (_draw (Num 1) (SetSVG_onFinish rotationCenter) this)
  end.

(** The [for] loop of the callback of [setSVG]. *)
Fixpoint setSVG_for (fuel : nat) (maxDimension testScale : number)
         (this : SVGSkin) : option SVGSkin :=
  match fuel with
  | O => None
  | S fuel' =>
      if leb (mul maxDimension testScale) MAX_TEXTURE_DIMENSION
      then setSVG_for fuel' maxDimension (mul testScale (Num 2))
                      (set_maxTextureScale this testScale)
      else Some this
  end.

(** The callback of [setSVG], run when the draw at scale 1 has finished. *)
Definition setSVG_onFinish (fuel : nat) (rotationCenter : option point)
           (this : SVGSkin) : option SVGSkin :=
  let this := set_maxTextureScale this (Num 1) in
  let this := set_textureScale this (_maxTextureScale this) in
  let textureData := canvas (_svgRenderer this) in
  let this :=
    match _texture this with
    | Some _ =>
        silhouette_update textureData (gl_texImage2D textureData this)
    | None =>
        silhouette_update textureData
          (set_texture (perform this (Twgl_createTexture textureData))
                       (Some textureData))
    end in
  let maxDimension :=
    Math_max (of_Z (width (canvas (_svgRenderer this))))
             (of_Z (height (canvas (_svgRenderer this)))) in
  match setSVG_for fuel maxDimension (Num 2) this with
  | None => None
  | Some this =>
      let rotationCenter :=
        match rotationCenter with
        | None => calculateRotationCenter this
        | Some rc => rc
        end in
      let this :=
        setRotationCenter (fst rotationCenter) (snd rotationCenter) this in
      Some (perform this Emit_WasAltered)
  end.

(** The renderer finishes a draw: the bitmap is on its canvas and the
    request's callback runs. *)
Definition paint (bitmap : ImageData) (this : SVGSkin) : SVGSkin :=
  set_svgRenderer this
    {| svg_size := svg_size (_svgRenderer this);
       svg_viewOffset := svg_viewOffset (_svgRenderer this);
       canvas := bitmap |}.

Definition finish (fuel : nat) (request : DrawRequest) (bitmap : ImageData)
           (this : SVGSkin) : option SVGSkin :=
  let this := paint bitmap this in
  match draw_onFinish request with
  | SetSVG_onFinish rotationCenter =>
      setSVG_onFinish fuel rotationCenter this
  | GetTexture_onFinish newScale =>
      Some (getTexture_onFinish newScale this)
  end.

(** ** The skin as a transition system *)

Inductive label : Type :=
| L_setSVG (svgData : string) (rotationCenter : option point)
| L_setRotationCenter (x y : number)
| L_getTexture (scale : option point)
| L_dispose
| L_finish (request : DrawRequest) (bitmap : ImageData).

(** A finished draw of [setSVG]: the completion of a load. *)
Definition is_load_completion (l : label) : bool :=
  match l with
  | L_finish {| draw_onFinish := SetSVG_onFinish _ |} _ => true
  | _ => false
  end.

Inductive step : SVGSkin -> label -> SVGSkin -> Prop :=
| step_setSVG svgData rotationCenter this this' :
    setSVG svgData rotationCenter this = Normal this' ->
    step this (L_setSVG svgData rotationCenter) this'
| step_setSVG_throw svgData rotationCenter this this' :
    setSVG svgData rotationCenter this = Throw this' ->
    step this (L_setSVG svgData rotationCenter) this'
| step_setRotationCenter x y this :
    step this (L_setRotationCenter x y) (setRotationCenter x y this)
| step_getTexture fuel scale this texture this' :
    getTexture fuel scale this = Some (texture, this') ->
    step this (L_getTexture scale) this'
| step_dispose this :
    step this L_dispose (dispose this)
(* the canvas of a finished draw has a positive width and height:
   [getImageData] throws on an empty one *)
| step_finish fuel before request after bitmap this this' :
    pending this = before ++ request :: after ->
    (0 < width bitmap)%Z -> (0 < height bitmap)%Z ->
    finish fuel request bitmap (set_pending this (before ++ after))
      = Some this' ->
    step this (L_finish request bitmap) this'.

(** [run ls this]: [this] is reached from the constructor by the steps
    [ls], the latest first. *)
Inductive run : list label -> SVGSkin -> Prop :=
| run_constructor : run [] constructor
| run_step ls l this this' :
    run ls this -> step this l this' -> run (l :: ls) this'.

Definition reachable (this : SVGSkin) : Prop := exists ls, run ls this.

End Methods.

(** ** Words of the specification *)

(** [doubled n x]: [x] after [n] rounds of [newScale *= 2]. *)
Definition doubled (n : nat) (x : number) : number :=
  Nat.iter n (fun s => mul s (Num 2)) x.

(** The powers of two 1, 2, 4, 8, ... *)
Definition pow2 (k : nat) : number := of_Z (2 ^ Z.of_nat k).

(** Step 1 of the specification: [scaleMax]. *)
Definition spec_scaleMax (scale : option point) : number :=
  match scale with
  | Some (sx, sy) => Math_max (Math_abs sx) (Math_abs sy)
  | None => Num 100
  end.

(** Step 2: [requestedScale = min(scaleMax / 100, maxTextureScale)]. *)
Definition spec_requestedScale (scale : option point) (this : SVGSkin)
  : number :=
  Math_min (div (spec_scaleMax scale) (Num 100)) (_maxTextureScale this).

(** Step 3: the condition under which [newScale] is doubled once more. *)
Definition spec_upgrades (this : SVGSkin) (requestedScale newScale : number)
  : bool :=
  ltb newScale (_maxTextureScale this)
  && geb requestedScale (mul (Num 1.5) newScale).

(** [settles this requestedScale n]: the loop doubles [n] times and stops. *)
Definition settles (this : SVGSkin) (requestedScale : number) (n : nat)
  : Prop :=
  (forall m, (m < n)%nat ->
     spec_upgrades this requestedScale (doubled m (_textureScale this)) = true)
  /\ spec_upgrades this requestedScale (doubled n (_textureScale this)) = false.

(** The state a [getTexture] call leaves when it settles on [newScale]. *)
Definition spec_after_getTexture (this : SVGSkin) (newScale : number)
  : SVGSkin :=
  if strict_ne (_textureScale this) newScale
  then _draw newScale (GetTexture_onFinish newScale)
             (set_textureScale this newScale)
  else this.

(** The texture scales of a skin: before the first load has been drawn the
    constructor's values 1 and 0, afterwards two powers of two in order. *)
Definition scales_fresh (this : SVGSkin) : Prop :=
  _textureScale this = Num 1 /\ _maxTextureScale this = Num 0.

Definition scales_loaded (this : SVGSkin) : Prop :=
  exists a b : nat,
    (a <= b)%nat /\ _textureScale this = pow2 a /\ _maxTextureScale this = pow2 b.

Definition scale_inv (this : SVGSkin) : Prop :=
  scales_fresh this \/ scales_loaded this.

(** The words of the specification for the maximum: [k] is the largest
    power of two, from 2 on, with [max(W, H) * k <= D]; 1 when there is
    none. *)
Definition spec_maxTextureScale (W H : Z) (D k : number) : Prop :=
  let fits (n : nat) := leb (mul (Math_max (of_Z W) (of_Z H)) (pow2 n)) D in
  (exists n, (1 <= n)%nat /\ k = pow2 n /\ fits n = true
             /\ forall n', (1 <= n')%nat -> fits n' = true -> (n' <= n)%nat)
  \/ (k = Num 1 /\ forall n', (1 <= n')%nat -> fits n' = false).

(** One load has completed among the steps [ls]. *)
Definition load_completed (ls : list label) : bool :=
  existsb is_load_completion ls.

(** A sequence of [getTexture] calls, one after the other. *)
Fixpoint getTexture_all (fuel : nat) (scales : list (option point))
         (this : SVGSkin) : option SVGSkin :=
  match scales with
  | [] => Some this
  | scale :: rest =>
      match getTexture fuel scale this with
      | None => None
      | Some (_, this') => getTexture_all fuel rest this'
      end
  end.

(** A renderer and a default rotation center to run the skin with. *)
Module Fixture.

Definition loadString (svgData : string) (r : SvgRenderer)
  : completion SvgRenderer :=
  if String.eqb svgData EmptyString then Throw r
  else Normal {| svg_size :=
                   (of_Z (Z.of_nat (String.length svgData)), Num 300);
                 svg_viewOffset := (Num 5, Num 7);
                 canvas := canvas r |}.

Definition calculateRotationCenter (this : SVGSkin) : point :=
  (div (fst (size this)) (Num 2), div (snd (size this)) (Num 2)).

Definition bitmap (w h : Z) : ImageData :=
  {| width := w; height := h; data := [] |}.

Definition loadRequest : DrawRequest :=
  {| draw_scale := Num 1; draw_onFinish := SetSVG_onFinish None |}.

(** [setSVG] has returned, its draw is pending. *)
Definition loading : SVGSkin :=
  match setSVG loadString "<svg/>" None constructor with
  | Normal this => this
  | Throw this => this
  end.

(** The load has been drawn on a [w] x [h] canvas. *)
Definition loaded (w h : Z) : SVGSkin :=
  match finish calculateRotationCenter 12 loadRequest (bitmap w h)
               (set_pending loading []) with
  | Some this => this
  | None => loading
  end.

Definition request (percent : Z) : option point :=
  Some (of_Z percent, of_Z percent).

(** The skin after [getTexture] at the given percentage. *)
Definition requested (percent : Z) (this : SVGSkin) : SVGSkin :=
  match getTexture 12 (request percent) this with
  | Some (_, this') => this'
  | None => this
  end.

(** A request of 200 percent has raised the scale to 2; its draw is
    pending. *)
Definition upgradeRequest : DrawRequest :=
  {| draw_scale := Num 2; draw_onFinish := GetTexture_onFinish (Num 2) |}.

Definition upgraded : SVGSkin := requested 200 (loaded 300 300).

(** [setSVG] has been called again and has returned. *)
Definition reloading : SVGSkin :=
  match setSVG loadString "<svg/>" None upgraded with
  | Normal this => this
  | Throw this => this
  end.

End Fixture.

(** ** Further notions for the reachable states *)

(** The texture exists after the steps [ls] (latest first): the latest of
    the load completions and disposals is a load completion. *)
Fixpoint texture_live (ls : list label) : bool :=
  match ls with
  | [] => false
  | l :: ls' =>
      if is_load_completion l then true
      else match l with
           | L_dispose => false
           | _ => texture_live ls'
           end
  end.

(** The arguments of the latest call of the base class's
    [setRotationCenter] among the effects (newest first). *)
Fixpoint last_Super_setRotationCenter (es : list Effect) : option point :=
  match es with
  | [] => None
  | Super_setRotationCenter x y :: _ => Some (x, y)
  | _ :: es' => last_Super_setRotationCenter es'
  end.

(** The raw rotation center is the unresolved [NaN, NaN], or the base class
    was last given the raw rotation center minus the view offset. *)
Definition rotationCenter_consistent (this : SVGSkin) : Prop :=
  _rawRotationCenter this = (NaN, NaN)
  \/ last_Super_setRotationCenter (effects this)
     = Some (sub (fst (_rawRotationCenter this)) (fst (_viewOffset this)),
             sub (snd (_rawRotationCenter this)) (snd (_viewOffset this))).

(** A draw request as the two call sites of [_draw] make them: a load at
    scale 1, or an upgrade at a power of two from 2 on whose callback
    holds the very scale of the draw. *)
Definition request_well_formed (request : DrawRequest) : Prop :=
  match draw_onFinish request with
  | SetSVG_onFinish _ => draw_scale request = Num 1
  | GetTexture_onFinish newScale =>
      exists k, (1 <= k)%nat /\ newScale = pow2 k /\ draw_scale request = pow2 k
  end.

(** [within_load a b]: [b] is reached from [a] by steps none of which
    completes a load. *)
Inductive within_load
          (loadString : string -> SvgRenderer -> completion SvgRenderer)
          (calculateRotationCenter : SVGSkin -> point)
  : SVGSkin -> SVGSkin -> Prop :=
| within_load_refl this :
    within_load loadString calculateRotationCenter this this
| within_load_step this mid l this' :
    within_load loadString calculateRotationCenter this mid ->
    step loadString calculateRotationCenter mid l this' ->
    is_load_completion l = false ->
    within_load loadString calculateRotationCenter this this'.

(** The skin in the callback of [setSVG] once the canvas has been uploaded
    and handed to the silhouette, with [m] as the maximum. *)
Definition uploaded (m : number) (this : SVGSkin) : SVGSkin :=
  {| _svgRenderer := _svgRenderer this;
     _texture := Some (canvas (_svgRenderer this));
     _textureScale := Num 1;
     _maxTextureScale := m;
     size := size this;
     _viewOffset := _viewOffset this;
     _rawRotationCenter := _rawRotationCenter this;
     _rotationCenter := _rotationCenter this;
     _silhouette := Some (canvas (_svgRenderer this));
     pending := pending this;
     effects :=
       Silhouette_update (canvas (_svgRenderer this))
       :: match _texture this with
          | Some _ => Gl_texImage2D (canvas (_svgRenderer this))
          | None => Twgl_createTexture (canvas (_svgRenderer this))
          end
       :: effects this |}.

(** The numbers of textures created and deleted among the effects. *)
Fixpoint textures_created (es : list Effect) : nat :=
  match es with
  | [] => 0
  | Twgl_createTexture _ :: es' => S (textures_created es')
  | _ :: es' => textures_created es'
  end.

Fixpoint textures_deleted (es : list Effect) : nat :=
  match es with
  | [] => 0
  | Gl_deleteTexture :: es' => S (textures_deleted es')
  | _ :: es' => textures_deleted es'
  end.

(** ** Arithmetic of the comparisons *)

Lemma Qle_bool_false (x y : Q) : Qle_bool x y = false <-> y < x.
Proof.
  split; intro H.
  - apply Qnot_le_lt. intro Hle. apply Qle_bool_iff in Hle. congruence.
  - destruct (Qle_bool x y) eqn:E; [|reflexivity].
    apply Qle_bool_iff in E. lra.
Qed.

Lemma ltb_of_Z (a b : Z) : ltb (of_Z a) (of_Z b) = (a <? b)%Z.
Proof.
  unfold ltb, of_Z, Qle_bool, inject_Z; simpl.
  rewrite !Z.mul_1_r. now rewrite Z.ltb_antisym.
Qed.

Lemma leb_of_Z (a b : Z) : leb (of_Z a) (of_Z b) = (a <=? b)%Z.
Proof.
  unfold leb, of_Z, Qle_bool, inject_Z; simpl.
  now rewrite !Z.mul_1_r.
Qed.

Lemma mul_of_Z (a b : Z) : mul (of_Z a) (of_Z b) = of_Z (a * b).
Proof. reflexivity. Qed.

Lemma pow2_S (k : nat) : mul (pow2 k) (Num 2) = pow2 (S k).
Proof.
  unfold pow2. change (Num 2) with (of_Z 2). rewrite mul_of_Z.
  f_equal. rewrite Nat2Z.inj_succ, Z.pow_succ_r by lia. lia.
Qed.

Lemma doubled_pow2 (n k : nat) : doubled n (pow2 k) = pow2 (k + n).
Proof.
  induction n as [|n IH].
  - simpl. now rewrite Nat.add_0_r.
  - change (doubled (S n) (pow2 k)) with (mul (doubled n (pow2 k)) (Num 2)).
    rewrite IH, pow2_S. f_equal. lia.
Qed.

Lemma pow2_nonzero (k : nat) : pow2 k <> Num 0.
Proof.
  unfold pow2, of_Z, inject_Z. intros H. injection H as H.
  pose proof (Z.pow_pos_nonneg 2 (Z.of_nat k)). lia.
Qed.

Lemma pow2_lt (a b : nat) : ltb (pow2 a) (pow2 b) = (a <? b)%nat.
Proof.
  unfold pow2. rewrite ltb_of_Z.
  destruct (Nat.ltb_spec a b) as [H|H].
  - apply Z.ltb_lt. apply Z.pow_lt_mono_r; lia.
  - apply Z.ltb_ge. apply Z.pow_le_mono_r; lia.
Qed.

Lemma pow2_le (a b : nat) : leb (pow2 a) (pow2 b) = (a <=? b)%nat.
Proof.
  unfold pow2. rewrite leb_of_Z.
  destruct (Nat.leb_spec a b) as [H|H].
  - apply Z.leb_le. apply Z.pow_le_mono_r; lia.
  - apply Z.leb_gt. apply Z.pow_lt_mono_r; lia.
Qed.

Lemma pow2_strict_ne (a b : nat) :
  strict_ne (pow2 a) (pow2 b) = negb (a =? b)%nat.
Proof.
  unfold strict_ne, strict_eq, pow2, of_Z. f_equal.
  destruct (Nat.eqb_spec a b) as [->|H].
  - apply Qeq_bool_iff. reflexivity.
  - destruct (Qeq_bool _ _) eqn:E; [|reflexivity].
    apply Qeq_bool_iff in E. rewrite inject_Z_injective in E.
    apply Z.pow_inj_r in E; lia.
Qed.

(** ** The loop of [getTexture] *)


Lemma settles_unique this requestedScale n n' :
  settles this requestedScale n -> settles this requestedScale n' -> n = n'.
Proof.
  intros [Hlt Hstop] [Hlt' Hstop'].
  destruct (Nat.lt_trichotomy n n') as [H|[H|H]]; [|assumption|].
  - specialize (Hlt' n H). congruence.
  - specialize (Hlt n' H). congruence.
Qed.

Lemma getTexture_while_more fuel this requestedScale newScale result :
  getTexture_while fuel this requestedScale newScale = Some result ->
  forall fuel', (fuel <= fuel')%nat ->
    getTexture_while fuel' this requestedScale newScale = Some result.
Proof.
  revert newScale.
  induction fuel as [|fuel IH]; intros newScale H fuel' Hle; [discriminate|].
  destruct fuel' as [|fuel']; [lia|].
  cbn [getTexture_while] in *.
  destruct (ltb newScale (_maxTextureScale this)
            && geb requestedScale (mul (Num 1.5) newScale)).
  - apply IH; [assumption|lia].
  - assumption.
Qed.

Lemma getTexture_while_pow2 this requestedScale b :
  _maxTextureScale this = pow2 b ->
  forall d a, (a + d = b)%nat ->
  exists n, (n <= d)%nat
    /\ (forall m, (m < n)%nat ->
          spec_upgrades this requestedScale (pow2 (a + m)) = true)
    /\ spec_upgrades this requestedScale (pow2 (a + n)) = false
    /\ forall fuel, (n < fuel)%nat ->
         getTexture_while fuel this requestedScale (pow2 a)
         = Some (pow2 (a + n)).
Proof.
  intros Hmax d.
  induction d as [|d IH]; intros a Hab.
  - exists 0%nat. rewrite Nat.add_0_r in *. subst a.
    assert (Hstop : spec_upgrades this requestedScale (pow2 b) = false).
    { unfold spec_upgrades. rewrite Hmax, pow2_lt, Nat.ltb_irrefl. reflexivity. }
    repeat split; [lia|intros; lia|assumption|].
    intros [|fuel] Hf; [lia|]. cbn [getTexture_while].
    unfold spec_upgrades in Hstop. now rewrite Hstop.
  - destruct (spec_upgrades this requestedScale (pow2 a)) eqn:Hup.
    + destruct (IH (S a)) as (n & Hn & Hlt & Hstop & Hrun); [lia|].
      exists (S n).
      replace (a + S n)%nat with (S a + n)%nat by lia.
      repeat split; [lia| |assumption|].
      * intros [|m] Hm.
        -- now rewrite Nat.add_0_r.
        -- replace (a + S m)%nat with (S a + m)%nat by lia.
           apply Hlt. lia.
      * intros [|fuel] Hf; [lia|]. cbn [getTexture_while].
        unfold spec_upgrades in Hup. rewrite Hup, pow2_S.
        apply Hrun. lia.
    + exists 0%nat. rewrite Nat.add_0_r.
      repeat split; [lia|intros; lia|assumption|].
      intros [|fuel] Hf; [lia|]. cbn [getTexture_while].
      unfold spec_upgrades in Hup. now rewrite Hup.
Qed.

(** In every state with well-formed scales the loop stops, on a power of
    two that is at least the current scale and within the maximum. *)
Lemma getTexture_while_settles this requestedScale :
  scale_inv this ->
  exists n,
    settles this requestedScale n
    /\ (forall fuel, (n < fuel)%nat ->
          getTexture_while fuel this requestedScale (_textureScale this)
          = Some (doubled n (_textureScale this)))
    /\ strict_ne (_textureScale this) (doubled n (_textureScale this))
       = negb (n =? 0)%nat
    /\ leb (_textureScale this) (doubled n (_textureScale this)) = true
    /\ scale_inv (set_textureScale this (doubled n (_textureScale this))).
Proof.
  intros [[Hcur Hmax]|(a & b & Hab & Hcur & Hmax)].
  - exists 0%nat. unfold settles, spec_upgrades.
    change (doubled 0 (_textureScale this)) with (_textureScale this).
    rewrite Hcur, Hmax.
    repeat split; try reflexivity; [intros; lia| |].
    + intros [|fuel] Hf; [lia|]. cbn [getTexture_while].
      rewrite Hmax. reflexivity.
    + left. split; [reflexivity|exact Hmax].
  - destruct (getTexture_while_pow2 this requestedScale b Hmax (b - a) a)
      as (n & Hn & Hlt & Hstop & Hrun); [lia|].
    exists n. unfold settles. rewrite Hcur.
    rewrite !doubled_pow2, pow2_strict_ne, pow2_le.
    repeat split.
    + intros m Hm. rewrite doubled_pow2. now apply Hlt.
    + assumption.
    + assumption.
    + f_equal. destruct n; simpl.
      * rewrite Nat.add_0_r. apply Nat.eqb_refl.
      * apply Nat.eqb_neq. lia.
    + apply Nat.leb_le. lia.
    + right. exists (a + n)%nat, b. simpl. repeat split; [lia|assumption].
Qed.

Lemma getTexture_settles this scale n :
  settles this (spec_requestedScale scale this) n ->
  forall fuel, (n < fuel)%nat ->
    getTexture_while fuel this (spec_requestedScale scale this)
                     (_textureScale this)
    = Some (doubled n (_textureScale this)) ->
    getTexture fuel scale this
    = Some (_texture this,
            spec_after_getTexture this (doubled n (_textureScale this))).
Proof.
  intros _ fuel _ Hrun.
  unfold getTexture.
  change (Math_min _ (_maxTextureScale this))
    with (spec_requestedScale scale this).
  - rewrite Hrun. unfold spec_after_getTexture.
    destruct (strict_ne _ _); reflexivity.
Qed.

(** ** The thresholds of the hysteresis *)

Lemma requestedScale_le (scaleMax maxTextureScale bound : number) (q : Q) :
  div scaleMax (Num 100) = Num q ->
  ltb (Num q) bound = true ->
  geb (Math_min (div scaleMax (Num 100)) maxTextureScale) bound = false.
Proof.
  intros -> Hlt.
  destruct bound as [|c]; [discriminate|].
  destruct maxTextureScale as [|m]; [reflexivity|].
  unfold geb, leb, Math_min, ltb in *.
  apply negb_true_iff, Qle_bool_false in Hlt.
  apply Qle_bool_false.
  destruct (Qle_bool q m) eqn:E; [assumption|].
  apply Qle_bool_false in E. lra.
Qed.

Lemma div_100 (scaleMax : number) (c : Q) :
  strict_eq scaleMax (Num c) = true ->
  exists q, div scaleMax (Num 100) = Num q /\ q == c / 100.
Proof.
  destruct scaleMax as [|s]; [discriminate|].
  intros H. apply Qeq_bool_iff in H.
  exists (s / 100). split; [reflexivity|]. now rewrite H.
Qed.

(** At scale 1 a request of 140 percent stays below the threshold. *)
Lemma request_140_stays (this : SVGSkin) (scale : option point) :
  _textureScale this = Num 1 ->
  strict_eq (spec_scaleMax scale) (Num 140) = true ->
  settles this (spec_requestedScale scale this) 0.
Proof.
  intros Hcur H140. split; [intros; lia|].
  change (doubled 0 (_textureScale this)) with (_textureScale this).
  rewrite Hcur. unfold spec_upgrades, spec_requestedScale.
  destruct (div_100 _ _ H140) as (q & Hq & Hv).
  rewrite (requestedScale_le _ _ _ q Hq); [apply andb_false_r|].
  unfold ltb, mul. apply negb_true_iff, Qle_bool_false.
  rewrite Hv. reflexivity.
Qed.

(** At scale 1 a request of 151 percent reaches the threshold: one
    doubling when the maximum is above 1, none when it is not. *)
Lemma request_151_upgrades (this : SVGSkin) (scale : option point) :
  scale_inv this ->
  _textureScale this = Num 1 ->
  strict_eq (spec_scaleMax scale) (Num 151) = true ->
  settles this (spec_requestedScale scale this)
          (if ltb (Num 1) (_maxTextureScale this) then 1 else 0).
Proof.
  intros Hinv Hcur H151.
  destruct (div_100 _ _ H151) as (q & Hq & Hv).
  destruct (ltb (Num 1) (_maxTextureScale this)) eqn:Hcap.
  - assert (Hb : exists b, (1 <= b)%nat /\ _maxTextureScale this = pow2 b).
    { destruct Hinv as [[_ Hmax]|(a & b & _ & _ & Hmax)].
      - rewrite Hmax in Hcap. discriminate.
      - exists b. split; [|assumption].
        rewrite Hmax in Hcap. change (Num 1) with (pow2 0) in Hcap.
        rewrite pow2_lt in Hcap. apply Nat.ltb_lt in Hcap. lia. }
    destruct Hb as (b & Hb & Hmax).
    assert (H2 : (2 <= 2 ^ Z.of_nat b)%Z).
    { change 2%Z with (2 ^ Z.of_nat 1)%Z at 1.
      apply Z.pow_le_mono_r; lia. }
    rewrite Zle_Qle in H2.
    split.
    + intros m Hm. assert (m = 0%nat) as -> by lia.
      change (doubled 0 (_textureScale this)) with (_textureScale this).
      rewrite Hcur. unfold spec_upgrades. rewrite Hcap. cbn [andb].
      unfold spec_requestedScale. rewrite Hq, Hmax.
      unfold geb, leb, Math_min, mul, pow2, of_Z.
      apply Qle_bool_iff.
      destruct (Qle_bool q _) eqn:E.
      * rewrite Hv. discriminate.
      * change (inject_Z 2) with 2 in H2. lra.
    + change (doubled 1 (_textureScale this))
        with (mul (_textureScale this) (Num 2)).
      rewrite Hcur. unfold spec_upgrades, spec_requestedScale.
      rewrite (requestedScale_le _ _ _ q Hq); [apply andb_false_r|].
      unfold ltb, mul. apply negb_true_iff, Qle_bool_false.
      rewrite Hv. reflexivity.
  - split; [intros; lia|].
    change (doubled 0 (_textureScale this)) with (_textureScale this).
    rewrite Hcur. unfold spec_upgrades. now rewrite Hcap.
Qed.

(** What a [getTexture] call does in a state with well-formed scales. *)
Lemma getTexture_spec (this : SVGSkin) (scale : option point) :
  scale_inv this ->
  exists n : nat,
    let requestedScale := spec_requestedScale scale this in
    let newScale := doubled n (_textureScale this) in
    (forall m, (m < n)%nat ->
       spec_upgrades this requestedScale (doubled m (_textureScale this))
       = true)
    /\ spec_upgrades this requestedScale newScale = false
    /\ (forall fuel, (n < fuel)%nat ->
          getTexture fuel scale this
          = Some (_texture this, spec_after_getTexture this newScale))
    /\ (_textureScale this = Num 1 ->
        strict_eq (spec_scaleMax scale) (Num 140) = true ->
        spec_after_getTexture this newScale = this)
    /\ (_textureScale this = Num 1 ->
        strict_eq (spec_scaleMax scale) (Num 151) = true ->
        if ltb (Num 1) (_maxTextureScale this)
        then newScale = Num 2
             /\ spec_after_getTexture this newScale
                = _draw (Num 2) (GetTexture_onFinish (Num 2))
                        (set_textureScale this (Num 2))
        else spec_after_getTexture this newScale = this).
Proof.
  intros Hinv.
  destruct (getTexture_while_settles this (spec_requestedScale scale this) Hinv)
    as (n & Hset & Hrun & _).
  exists n. cbv zeta.
  destruct Hset as [Hlt Hstop].
  split; [exact Hlt|]. split; [exact Hstop|]. split; [|split].
  - intros fuel Hf. apply (getTexture_settles this scale n); auto.
    split; assumption.
  - intros Hcur H140.
    assert (n = 0)%nat as ->.
    { eapply settles_unique; [split; eassumption|].
      now apply request_140_stays. }
    change (doubled 0 (_textureScale this)) with (_textureScale this).
    unfold spec_after_getTexture. rewrite Hcur. reflexivity.
  - intros Hcur H151.
    pose proof (request_151_upgrades this scale Hinv Hcur H151) as H.
    destruct (ltb (Num 1) (_maxTextureScale this)).
    + assert (n = 1)%nat as ->.
      { eapply settles_unique; [split; eassumption|exact H]. }
      change (doubled 1 (_textureScale this))
        with (mul (_textureScale this) (Num 2)).
      unfold spec_after_getTexture. rewrite Hcur. split; reflexivity.
    + assert (n = 0)%nat as ->.
      { eapply settles_unique; [split; eassumption|exact H]. }
      change (doubled 0 (_textureScale this)) with (_textureScale this).
      unfold spec_after_getTexture. rewrite Hcur. reflexivity.
Qed.

(** ** The completion of a load *)

Lemma Math_max_of_Z (a b : Z) : Math_max (of_Z a) (of_Z b) = of_Z (Z.max a b).
Proof.
  unfold Math_max, of_Z, Qle_bool, inject_Z; simpl.
  rewrite !Z.mul_1_r.
  destruct (Z.leb_spec a b); [rewrite Z.max_r|rewrite Z.max_l];
    (reflexivity || lia).
Qed.

Lemma fits_of_Z (M : Z) (k : nat) :
  leb (mul (of_Z M) (pow2 k)) MAX_TEXTURE_DIMENSION
  = (M * 2 ^ Z.of_nat k <=? 2048)%Z.
Proof.
  unfold pow2. rewrite mul_of_Z.
  change MAX_TEXTURE_DIMENSION with (of_Z 2048). apply leb_of_Z.
Qed.

Lemma set_maxTextureScale_twice this a b :
  set_maxTextureScale (set_maxTextureScale this a) b
  = set_maxTextureScale this b.
Proof. reflexivity. Qed.


Lemma setSVG_for_spec (M : Z) :
  (1 <= M)%Z ->
  forall d j this,
    (2048 < M * 2 ^ Z.of_nat (j + d))%Z ->
    exists n, (n <= d)%nat
      /\ (forall m, (m < n)%nat -> (M * 2 ^ Z.of_nat (j + m) <= 2048)%Z)
      /\ (2048 < M * 2 ^ Z.of_nat (j + n))%Z
      /\ forall fuel, (n < fuel)%nat ->
           setSVG_for fuel (of_Z M) (pow2 j) this
           = Some (match n with
                   | O => this
                   | S n' => set_maxTextureScale this (pow2 (j + n'))
                   end).
Proof.
  intros HM d.
  induction d as [|d IH]; intros j this Hbig.
  - exists 0%nat. rewrite Nat.add_0_r in *.
    repeat split; [lia|intros; lia|assumption|].
    intros [|fuel] Hf; [lia|]. cbn [setSVG_for].
    rewrite fits_of_Z.
    destruct (Z.leb_spec (M * 2 ^ Z.of_nat j) 2048); [lia|reflexivity].
  - destruct (Z.leb_spec (M * 2 ^ Z.of_nat j) 2048) as [Hfit|Hfit].
    + destruct (IH (S j) (set_maxTextureScale this (pow2 j)))
        as (n & Hn & Hlt & Hstop & Hrun).
      { replace (S j + d)%nat with (j + S d)%nat by lia. assumption. }
      exists (S n).
      replace (j + S n)%nat with (S j + n)%nat by lia.
      repeat split; [lia| |assumption|].
      * intros [|m] Hm.
        -- now rewrite Nat.add_0_r.
        -- replace (j + S m)%nat with (S j + m)%nat by lia. apply Hlt. lia.
      * intros [|fuel] Hf; [lia|]. cbn [setSVG_for].
        rewrite fits_of_Z.
        destruct (Z.leb_spec (M * 2 ^ Z.of_nat j) 2048); [|lia].
        rewrite pow2_S, Hrun by lia.
        destruct n as [|n'].
        -- now rewrite Nat.add_0_r.
        -- rewrite set_maxTextureScale_twice.
           now replace (S j + n')%nat with (j + S n')%nat by lia.
    + exists 0%nat. rewrite Nat.add_0_r.
      repeat split; [lia|intros; lia|assumption|].
      intros [|fuel] Hf; [lia|]. cbn [setSVG_for].
      rewrite fits_of_Z.
      destruct (Z.leb_spec (M * 2 ^ Z.of_nat j) 2048); [lia|reflexivity].
Qed.

Lemma setRotationCenter_scales x y this :
  _textureScale (setRotationCenter x y this) = _textureScale this
  /\ _maxTextureScale (setRotationCenter x y this) = _maxTextureScale this.
Proof.
  unfold setRotationCenter.
  destruct (_ || _); split; reflexivity.
Qed.

(** The callback of [setSVG] returns, with scale 1 and the maximum
    [pow2 n] for the last [n] whose doubling fits. *)
Lemma setSVG_onFinish_scales calculateRotationCenter rotationCenter this :
  let W := width (canvas (_svgRenderer this)) in
  let H := height (canvas (_svgRenderer this)) in
  (0 < W)%Z -> (0 < H)%Z ->
  exists (n : nat) this',
    (forall fuel, (12 <= fuel)%nat ->
       setSVG_onFinish calculateRotationCenter fuel rotationCenter this
       = Some this')
    /\ _textureScale this' = Num 1
    /\ _maxTextureScale this' = pow2 n
    /\ (forall m, (1 <= m)%nat ->
          ((Z.max W H * 2 ^ Z.of_nat m <= 2048)%Z <-> (m <= n)%nat)).
Proof.
  intros W H HW HH.
  set (M := Z.max W H).
  assert (HM : (1 <= M)%Z) by (unfold M; lia).
  set (this1 := set_textureScale (set_maxTextureScale this (Num 1))
                  (_maxTextureScale (set_maxTextureScale this (Num 1)))).
  set (textureData := canvas (_svgRenderer this1)).
  set (this2 :=
         match _texture this1 with
         | Some _ =>
             silhouette_update textureData (gl_texImage2D textureData this1)
         | None =>
             silhouette_update textureData
               (set_texture (perform this1 (Twgl_createTexture textureData))
                            (Some textureData))
         end).
  assert (H2 : _textureScale this2 = Num 1 /\ _maxTextureScale this2 = Num 1
               /\ canvas (_svgRenderer this2) = canvas (_svgRenderer this)).
  { unfold this2. destruct (_texture this1); repeat split. }
  destruct H2 as (Hc2 & Hm2 & Hcanvas).
  destruct (setSVG_for_spec M HM 11 1 this2) as (n & Hn & Hlt & Hstop & Hrun).
  { simpl Z.of_nat. change (2 ^ 12)%Z with 4096%Z. lia. }
  set (this3 := match n with
                | O => this2
                | S n' => set_maxTextureScale this2 (pow2 (1 + n'))
                end) in Hrun.
  assert (H3 : _textureScale this3 = Num 1 /\ _maxTextureScale this3 = pow2 n).
  { unfold this3. destruct n; split; assumption || reflexivity. }
  set (rc := match rotationCenter with
             | None => calculateRotationCenter this3
             | Some rc => rc
             end).
  exists n, (perform (setRotationCenter (fst rc) (snd rc) this3) Emit_WasAltered).
  repeat split.
  - intros fuel Hf. unfold setSVG_onFinish.
    fold this1. fold textureData. fold this2.
    rewrite Hcanvas. fold W. fold H. rewrite Math_max_of_Z. fold M.
    change (Num 2) with (pow2 1).
    rewrite Hrun by lia. reflexivity.
  - cbn. destruct (setRotationCenter_scales (fst rc) (snd rc) this3) as [-> _].
    apply H3.
  - cbn. destruct (setRotationCenter_scales (fst rc) (snd rc) this3) as [_ ->].
    apply H3.
  - intros Hfit.
    destruct (Nat.le_gt_cases m n) as [Hle|Hgt]; [assumption|exfalso].
    assert (M * 2 ^ Z.of_nat (1 + n) <= M * 2 ^ Z.of_nat m)%Z.
    { apply Z.mul_le_mono_nonneg_l; [lia|]. apply Z.pow_le_mono_r; lia. }
    lia.
  - intros Hle.
    replace m with (1 + (m - 1))%nat by lia. apply Hlt. lia.
Qed.

Lemma setSVG_for_more fuel maxDimension testScale this result :
  setSVG_for fuel maxDimension testScale this = Some result ->
  forall fuel', (fuel <= fuel')%nat ->
    setSVG_for fuel' maxDimension testScale this = Some result.
Proof.
  revert testScale this.
  induction fuel as [|fuel IH]; intros testScale this H fuel' Hle;
    [discriminate|].
  destruct fuel' as [|fuel']; [lia|].
  cbn [setSVG_for] in *.
  destruct (leb (mul maxDimension testScale) MAX_TEXTURE_DIMENSION).
  - apply IH; [assumption|lia].
  - assumption.
Qed.

Lemma setSVG_onFinish_more calculateRotationCenter fuel rotationCenter this
      result :
  setSVG_onFinish calculateRotationCenter fuel rotationCenter this
  = Some result ->
  forall fuel', (fuel <= fuel')%nat ->
    setSVG_onFinish calculateRotationCenter fuel' rotationCenter this
    = Some result.
Proof.
  unfold setSVG_onFinish. intros H fuel' Hle.
  destruct (setSVG_for fuel _ _ _) as [this'|] eqn:E; [|discriminate].
  now rewrite (setSVG_for_more _ _ _ _ _ E fuel' Hle).
Qed.

(** ** What each method does to the scales *)

Lemma scale_inv_leb_refl this :
  scale_inv this -> leb (_textureScale this) (_textureScale this) = true.
Proof.
  intros [[-> _]|(a & b & _ & -> & _)]; [reflexivity|].
  rewrite pow2_le. apply Nat.leb_refl.
Qed.

(** Whatever fuel let the call return, it returned the state of the
    specification, with the scale doubled [n] times. *)
Lemma getTexture_inv fuel scale this texture this' :
  scale_inv this ->
  getTexture fuel scale this = Some (texture, this') ->
  exists n,
    settles this (spec_requestedScale scale this) n
    /\ texture = _texture this
    /\ this' = spec_after_getTexture this (doubled n (_textureScale this))
    /\ _textureScale this' = doubled n (_textureScale this)
    /\ _maxTextureScale this' = _maxTextureScale this
    /\ _texture this' = _texture this
    /\ _silhouette this' = _silhouette this
    /\ leb (_textureScale this) (_textureScale this') = true
    /\ scale_inv this'.
Proof.
  intros Hinv Hget.
  destruct (getTexture_while_settles this (spec_requestedScale scale this) Hinv)
    as (n & Hset & Hrun & Hne & Hle & Hinv').
  exists n. split; [assumption|].
  assert (Hspec : getTexture (Nat.max fuel (S n)) scale this
                  = Some (_texture this,
                          spec_after_getTexture this
                            (doubled n (_textureScale this)))).
  { apply getTexture_settles; [assumption|lia|apply Hrun; lia]. }
  assert (Hsame : getTexture (Nat.max fuel (S n)) scale this
                  = Some (texture, this')).
  { unfold getTexture in *.
    destruct (getTexture_while fuel this _ _) as [r|] eqn:E; [|discriminate].
    rewrite (getTexture_while_more _ _ _ _ _ E); [assumption|lia]. }
  rewrite Hspec in Hsame. injection Hsame as <- <-.
  unfold spec_after_getTexture. rewrite Hne.
  destruct n as [|n]; cbn [Nat.eqb negb].
  - change (doubled 0 (_textureScale this)) with (_textureScale this) in *.
    repeat split; try reflexivity; try assumption.
  - repeat split; try reflexivity; try assumption.
Qed.

Lemma getTexture_onFinish_scales newScale this :
  _textureScale (getTexture_onFinish newScale this) = _textureScale this
  /\ _maxTextureScale (getTexture_onFinish newScale this)
     = _maxTextureScale this
  /\ (_texture this = None ->
      _texture (getTexture_onFinish newScale this) = None).
Proof.
  unfold getTexture_onFinish.
  destruct (strict_eq _ _); split; [reflexivity| |reflexivity|];
    (split; [reflexivity|]); intros H; [|exact H].
  cbn. now rewrite H.
Qed.

Lemma dispose_scales this :
  _textureScale (dispose this) = _textureScale this
  /\ _maxTextureScale (dispose this) = _maxTextureScale this
  /\ (_texture this = None -> _texture (dispose this) = None).
Proof.
  unfold dispose.
  destruct (_texture this) eqn:E; split; [reflexivity| |reflexivity|];
    (split; [reflexivity|]); intros H; [reflexivity|].
  cbn. exact E.
Qed.

Lemma setRotationCenter_texture x y this :
  _texture (setRotationCenter x y this) = _texture this.
Proof.
  unfold setRotationCenter. destruct (_ || _); reflexivity.
Qed.

(** ** Invariants of the reachable states *)

Section Reachable.

Variable loadString : string -> SvgRenderer -> completion SvgRenderer.
Variable calculateRotationCenter : SVGSkin -> point.

Local Abbreviation step := (step loadString calculateRotationCenter).
Local Abbreviation run := (run loadString calculateRotationCenter).
Local Abbreviation reachable := (reachable loadString calculateRotationCenter).

(** The synchronous part of [setSVG] leaves the texture and its scales
    alone, whether the renderer accepts the source or not. *)
Lemma setSVG_scales svgData rotationCenter this result :
  setSVG loadString svgData rotationCenter this = result ->
  let this' := match result with Normal s => s | Throw s => s end in
  _textureScale this' = _textureScale this
  /\ _maxTextureScale this' = _maxTextureScale this
  /\ _texture this' = _texture this
  /\ _silhouette this' = _silhouette this.
Proof.
  unfold setSVG. intros <-.
  destruct (loadString svgData (_svgRenderer this)); repeat split.
Qed.

(** A step that completes a load leaves scale 1 under a power-of-two
    maximum. *)
Lemma step_load_completion this l this' :
  step this l this' ->
  is_load_completion l = true ->
  _textureScale this' = Num 1
  /\ exists n, _maxTextureScale this' = pow2 n.
Proof.
  intros Hstep Hload.
  destruct Hstep as [| | | | |fuel before request after bitmap this this'
                             Hpending HW HH Hfinish];
    try discriminate.
  destruct request as [scale [rotationCenter|newScale]]; [|discriminate].
  unfold finish in Hfinish. cbn [draw_onFinish] in Hfinish.
  destruct (setSVG_onFinish_scales calculateRotationCenter rotationCenter
              (paint bitmap (set_pending this (before ++ after))) HW HH)
    as (n & this'' & Hrun & Hcur & Hmax & _).
  pose proof (setSVG_onFinish_more _ _ _ _ _ Hfinish (Nat.max fuel 12)
                (Nat.le_max_l _ _)) as H1.
  rewrite Hrun in H1 by lia. injection H1 as ->.
  split; [assumption|]. now exists n.
Qed.

(** Every other step keeps the maximum and never lowers the scale. *)
Lemma step_within_load this l this' :
  step this l this' ->
  is_load_completion l = false ->
  scale_inv this ->
  _maxTextureScale this' = _maxTextureScale this
  /\ leb (_textureScale this) (_textureScale this') = true
  /\ scale_inv this'
  /\ (scales_fresh this -> scales_fresh this')
  /\ (_texture this = None -> _texture this' = None).
Proof.
  intros Hstep Hload Hinv.
  assert (Hkeep : forall s : SVGSkin,
             _textureScale s = _textureScale this ->
             _maxTextureScale s = _maxTextureScale this ->
             (_texture this = None -> _texture s = None) ->
             _maxTextureScale s = _maxTextureScale this
             /\ leb (_textureScale this) (_textureScale s) = true
             /\ scale_inv s
             /\ (scales_fresh this -> scales_fresh s)
             /\ (_texture this = None -> _texture s = None)).
  { intros s Hc Hm Ht. unfold scale_inv, scales_fresh, scales_loaded.
    rewrite Hc, Hm.
    repeat split; try tauto. now apply scale_inv_leb_refl. }
  destruct Hstep as [svgData rotationCenter this this' Hset
                    |svgData rotationCenter this this' Hset
                    |x y this
                    |fuel scale this texture this' Hget
                    |this
                    |fuel before request after bitmap this this'
                          Hpending HW HH Hfinish].
  - destruct (setSVG_scales _ _ _ _ Hset) as (Hc & Hm & Ht & _).
    apply Hkeep; congruence.
  - destruct (setSVG_scales _ _ _ _ Hset) as (Hc & Hm & Ht & _).
    apply Hkeep; congruence.
  - destruct (setRotationCenter_scales x y this) as [Hc Hm].
    apply Hkeep; auto. rewrite setRotationCenter_texture. auto.
  - destruct (getTexture_inv _ _ _ _ _ Hinv Hget)
      as (n & Hset & _ & Hthis' & Hc & Hm & Ht & _ & Hle & Hinv').
    repeat split; try assumption.
    + destruct Hinv' as [[H1 H2]|(a & b & Hab & H1 & H2)]; [assumption|].
      destruct H as [_ H0]. rewrite Hm, H0 in H2.
      symmetry in H2. now apply pow2_nonzero in H2.
    + destruct Hinv' as [[H1 H2]|(a & b & Hab & H1 & H2)]; [assumption|].
      destruct H as [_ H0]. rewrite Hm, H0 in H2.
      symmetry in H2. now apply pow2_nonzero in H2.
    + congruence.
  - destruct (dispose_scales this) as (Hc & Hm & Ht).
    apply Hkeep; auto.
  - destruct request as [scale [rotationCenter|newScale]]; [discriminate|].
    unfold finish in Hfinish. cbn [draw_onFinish] in Hfinish.
    injection Hfinish as <-.
    destruct (getTexture_onFinish_scales newScale
                (paint bitmap (set_pending this (before ++ after))))
      as (Hc & Hm & Ht).
    apply Hkeep; auto.
Qed.


Lemma run_scales ls this :
  run ls this ->
  if load_completed ls
  then scales_loaded this
  else scales_fresh this /\ _texture this = None.
Proof.
  induction 1 as [|ls l this this' Hrun IH Hstep].
  - repeat split.
  - cbn [load_completed existsb]. fold (load_completed ls).
    destruct (is_load_completion l) eqn:Hl; cbn [orb].
    + destruct (step_load_completion _ _ _ Hstep Hl) as (Hc & n & Hm).
      exists 0%nat, n. repeat split; [lia|assumption|assumption].
    + assert (Hinv : scale_inv this).
      { destruct (load_completed ls); [right|left]; tauto. }
      destruct (step_within_load _ _ _ Hstep Hl Hinv)
        as (Hm & Hle & Hinv' & Hfresh & Htex).
      destruct (load_completed ls).
      * destruct Hinv' as [[_ H0]|Hloaded]; [|assumption].
        destruct IH as (a & b & _ & _ & Hb).
        rewrite Hm, Hb in H0. now apply pow2_nonzero in H0.
      * split; [apply Hfresh|apply Htex]; tauto.
Qed.

Lemma reachable_scale_inv this : reachable this -> scale_inv this.
Proof.
  intros [ls Hrun]. apply run_scales in Hrun.
  destruct (load_completed ls); [right|left]; tauto.
Qed.

End Reachable.

(** ** Sequences of requests *)

Lemma leb_trans (a b c : number) :
  leb a b = true -> leb b c = true -> leb a c = true.
Proof.
  destruct a as [|x], b as [|y], c as [|z]; try discriminate.
  unfold leb. rewrite !Qle_bool_iff. apply Qle_trans.
Qed.

Lemma getTexture_all_app fuel before after this :
  getTexture_all fuel (before ++ after) this
  = match getTexture_all fuel before this with
    | Some mid => getTexture_all fuel after mid
    | None => None
    end.
Proof.
  revert this.
  induction before as [|scale before IH]; intros this; [reflexivity|].
  cbn [app getTexture_all].
  destruct (getTexture fuel scale this) as [[texture this']|]; [|reflexivity].
  apply IH.
Qed.

Lemma getTexture_all_inv scales :
  forall this,
    scale_inv this ->
    exists fuel0 this',
      (forall fuel, (fuel0 <= fuel)%nat ->
         getTexture_all fuel scales this = Some this')
      /\ leb (_textureScale this) (_textureScale this') = true
      /\ scale_inv this'.
Proof.
  induction scales as [|scale scales IH]; intros this Hinv.
  - exists 0%nat, this. repeat split; [|assumption].
    now apply scale_inv_leb_refl.
  - destruct (getTexture_spec this scale Hinv) as (n & _ & _ & Hrun & _).
    cbv zeta in Hrun.
    destruct (getTexture_inv _ _ _ _ _ Hinv (Hrun (S n) (Nat.lt_succ_diag_r n)))
      as (_ & _ & _ & _ & _ & _ & _ & _ & Hle & Hinv').
    destruct (IH _ Hinv') as (fuel1 & this' & Hrest & Hle' & Hinv'').
    exists (Nat.max (S n) fuel1), this'. repeat split.
    + intros fuel Hf. cbn [getTexture_all].
      rewrite Hrun by lia. apply Hrest. lia.
    + eapply leb_trans; eassumption.
    + assumption.
Qed.

(** At any scale from 1 up a request of 50 percent stays below the
    threshold. *)
Lemma request_50_stays (this : SVGSkin) (scale : option point) :
  scale_inv this ->
  strict_eq (spec_scaleMax scale) (Num 50) = true ->
  settles this (spec_requestedScale scale this) 0.
Proof.
  intros Hinv H50. split; [intros; lia|].
  change (doubled 0 (_textureScale this)) with (_textureScale this).
  unfold spec_upgrades, spec_requestedScale.
  destruct (div_100 _ _ H50) as (q & Hq & Hv).
  rewrite (requestedScale_le _ _ _ q Hq); [apply andb_false_r|].
  assert (Hk : exists k, _textureScale this = pow2 k).
  { destruct Hinv as [[-> _]|(a & b & _ & -> & _)];
      [now exists 0%nat|now exists a]. }
  destruct Hk as [k ->].
  unfold ltb, mul, pow2, of_Z. apply negb_true_iff, Qle_bool_false.
  assert (H1 : (1 <= 2 ^ Z.of_nat k)%Z) by (apply Z.lt_pred_le; simpl; lia).
  rewrite Zle_Qle in H1. change (inject_Z 1) with 1 in H1.
  rewrite Hv.
  apply Qlt_le_trans with (1.5 * 1); [reflexivity|].
  apply Qmult_le_l; [reflexivity|assumption].
Qed.

(** ** The fixture states are reachable *)

Lemma run_loaded :
  run Fixture.loadString Fixture.calculateRotationCenter
      [L_finish Fixture.loadRequest (Fixture.bitmap 300 300);
       L_setSVG "<svg/>" None]
      (Fixture.loaded 300 300).
Proof.
  eapply run_step.
  - eapply run_step; [apply run_constructor|].
    apply step_setSVG with (this' := Fixture.loading).
    vm_compute. reflexivity.
  - apply step_finish with (fuel := 12%nat) (before := []) (after := []);
      vm_compute; reflexivity.
Defined.

Lemma run_reloading :
  run Fixture.loadString Fixture.calculateRotationCenter
      [L_setSVG "<svg/>" None;
       L_getTexture (Fixture.request 200);
       L_finish Fixture.loadRequest (Fixture.bitmap 300 300);
       L_setSVG "<svg/>" None]
      Fixture.reloading.
Proof.
  eapply run_step.
  - eapply run_step; [apply run_loaded|].
    apply step_getTexture
      with (fuel := 12%nat) (texture := Some (Fixture.bitmap 300 300))
           (this' := Fixture.upgraded).
    vm_compute. reflexivity.
  - apply step_setSVG with (this' := Fixture.reloading).
    vm_compute. reflexivity.
Defined.

(** ** The texture request *)

(** C1.  In every reachable state [getTexture] takes
    [scaleMax = max(|sx|, |sy|)] (100 without a scale) and
    [requestedScale = min(scaleMax / 100, maxTextureScale)], and doubles
    [newScale] from the current texture scale exactly as long as
    [newScale < maxTextureScale] and [requestedScale >= 1.5 * newScale]:
    the call returns, the condition held before each of the [n] doublings
    and fails after the last, and a draw at the new scale is queued when
    the scale changed.  At scale 1 a request of 140 percent changes
    nothing; a request of 151 percent raises the scale to 2, capped by the
    maximum: the scale stays 1 when the maximum is not above 1. *)
Theorem getTexture_selects_scale
        (loadString : string -> SvgRenderer -> completion SvgRenderer)
        (calculateRotationCenter : SVGSkin -> point)
        (this : SVGSkin) (scale : option point) :
  reachable loadString calculateRotationCenter this ->
  exists n : nat,
    let requestedScale := spec_requestedScale scale this in
    let newScale := doubled n (_textureScale this) in
    (forall m, (m < n)%nat ->
       spec_upgrades this requestedScale (doubled m (_textureScale this))
       = true)
    /\ spec_upgrades this requestedScale newScale = false
    /\ (forall fuel, (n < fuel)%nat ->
          getTexture fuel scale this
          = Some (_texture this, spec_after_getTexture this newScale))
    /\ (_textureScale this = Num 1 ->
        strict_eq (spec_scaleMax scale) (Num 140) = true ->
        spec_after_getTexture this newScale = this)
    /\ (_textureScale this = Num 1 ->
        strict_eq (spec_scaleMax scale) (Num 151) = true ->
        if ltb (Num 1) (_maxTextureScale this)
        then newScale = Num 2
             /\ spec_after_getTexture this newScale
                = _draw (Num 2) (GetTexture_onFinish (Num 2))
                        (set_textureScale this (Num 2))
        else spec_after_getTexture this newScale = this).
Proof.
  intros Hreach. apply getTexture_spec.
  now apply reachable_scale_inv with loadString calculateRotationCenter.
Qed.

Lemma getTexture_selects_scale_witness :
  exists n, doubled n (_textureScale (Fixture.loaded 300 300)) = Num 2.
Proof.
  destruct (getTexture_selects_scale
              Fixture.loadString Fixture.calculateRotationCenter
              (Fixture.loaded 300 300) (Fixture.request 151)
              (ex_intro _ _ run_loaded))
    as (n & _ & _ & _ & _ & H151).
  exists n. apply (H151 eq_refl eq_refl).
Defined.

(** C10.  Before the first load has been drawn the skin still has a null
    texture, scale 1 and maximum 0; [min(scaleMax / 100, 0)] is never
    1.5 times that scale, and [getTexture] returns null and leaves the
    skin as it was: no draw is queued and no collaborator is called. *)
Theorem getTexture_before_first_load
        (loadString : string -> SvgRenderer -> completion SvgRenderer)
        (calculateRotationCenter : SVGSkin -> point)
        (ls : list label) (this : SVGSkin) (scale : option point)
        (fuel : nat) :
  run loadString calculateRotationCenter ls this ->
  load_completed ls = false ->
  _texture this = None
  /\ _textureScale this = Num 1
  /\ _maxTextureScale this = Num 0
  /\ geb (spec_requestedScale scale this) (mul (Num 1.5) (_textureScale this))
     = false
  /\ getTexture (S fuel) scale this = Some (None, this).
Proof.
  intros Hrun Hnone. apply run_scales in Hrun. rewrite Hnone in Hrun.
  destruct Hrun as [[Hcur Hmax] Htex].
  repeat split; try assumption.
  - unfold spec_requestedScale. rewrite Hcur, Hmax.
    destruct (div (spec_scaleMax scale) (Num 100)) as [|q]; [reflexivity|].
    unfold geb, leb, Math_min, mul. apply Qle_bool_false.
    destruct (Qle_bool q 0) eqn:E.
    + apply Qle_bool_iff in E. lra.
    + reflexivity.
  - unfold getTexture. cbn [getTexture_while].
    rewrite Hcur, Hmax. unfold ltb.
    change (negb (Qle_bool 0 1)) with false. cbn [andb].
    change (strict_ne (Num 1) (Num 1)) with false. cbv iota.
    now rewrite Htex.
Qed.

Lemma getTexture_before_first_load_witness :
  getTexture 1 (Fixture.request 1000) Fixture.loading
  = Some (None, Fixture.loading).
Proof.
  apply (getTexture_before_first_load
           Fixture.loadString Fixture.calculateRotationCenter
           [L_setSVG "<svg/>" None] Fixture.loading (Fixture.request 1000) 0).
  - eapply run_step; [apply run_constructor|].
    apply step_setSVG with (this' := Fixture.loading).
    vm_compute. reflexivity.
  - reflexivity.
Defined.

(** ** The load *)

(** C2.  When the draw of a load finishes on a bitmap of width [W] and
    height [H], both positive, the callback returns and leaves as
    [_maxTextureScale] the largest power of two [k >= 2] with
    [max(W, H) * k <= MAX_TEXTURE_DIMENSION] (2048), or 1 when no such
    power fits; a 300 x 300 bitmap gives 4. *)
Theorem load_sets_maxTextureScale
        (calculateRotationCenter : SVGSkin -> point)
        (request : DrawRequest) (rotationCenter : option point)
        (bitmap : ImageData) (this : SVGSkin) :
  draw_onFinish request = SetSVG_onFinish rotationCenter ->
  (0 < width bitmap)%Z ->
  (0 < height bitmap)%Z ->
  exists this',
    (forall fuel, (12 <= fuel)%nat ->
       finish calculateRotationCenter fuel request bitmap this = Some this')
    /\ spec_maxTextureScale (width bitmap) (height bitmap)
                            MAX_TEXTURE_DIMENSION (_maxTextureScale this')
    /\ (width bitmap = 300%Z -> height bitmap = 300%Z ->
        _maxTextureScale this' = Num 4).
Proof.
  intros Hcb HW HH.
  destruct (setSVG_onFinish_scales calculateRotationCenter rotationCenter
              (paint bitmap this) HW HH)
    as (n & this' & Hrun & _ & Hmax & Hfit).
  change (width (canvas (_svgRenderer (paint bitmap this))))
    with (width bitmap) in Hfit.
  change (height (canvas (_svgRenderer (paint bitmap this))))
    with (height bitmap) in Hfit.
  exists this'. split; [|split].
  - intros fuel Hf. unfold finish. rewrite Hcb. now apply Hrun.
  - unfold spec_maxTextureScale. rewrite Math_max_of_Z, Hmax.
    destruct n as [|n].
    + right. split; [reflexivity|].
      intros n' Hn'. rewrite fits_of_Z. apply Z.leb_gt.
      destruct (Z.le_gt_cases
                  (Z.max (width bitmap) (height bitmap) * 2 ^ Z.of_nat n')
                  2048) as [H|H]; [|lia].
      apply Hfit in H; lia.
    + left. exists (S n). repeat split; [lia| |].
      * rewrite fits_of_Z. apply Z.leb_le. apply Hfit; lia.
      * intros n' Hn'. rewrite fits_of_Z. intros H.
        apply Z.leb_le in H. now apply Hfit in H.
  - intros E1 E2. rewrite E1, E2 in Hfit. rewrite Hmax.
    assert (H2 : (2 <= n)%nat) by (apply Hfit; [lia|discriminate]).
    assert (H3 : ~ (3 <= n)%nat).
    { intros H. apply Hfit in H; [|lia]. now apply H. }
    assert (n = 2)%nat as -> by lia. reflexivity.
Qed.

Lemma load_sets_maxTextureScale_witness :
  exists this',
    finish Fixture.calculateRotationCenter 12 Fixture.loadRequest
           (Fixture.bitmap 300 300) (set_pending Fixture.loading [])
    = Some this'
    /\ _maxTextureScale this' = Num 4.
Proof.
  destruct (load_sets_maxTextureScale
              Fixture.calculateRotationCenter Fixture.loadRequest None
              (Fixture.bitmap 300 300) (set_pending Fixture.loading [])
              eq_refl eq_refl eq_refl)
    as (this' & Hrun & _ & H300).
  exists this'. split.
  - apply Hrun. apply le_n.
  - apply H300; reflexivity.
Defined.

(** C6.  When the renderer accepts the source, [setSVG] returns with
    [size] and [_viewOffset] taken from the renderer and
    [_rawRotationCenter] reset to [NaN, NaN]; the draw at scale 1 is only
    queued, and the texture and its scales are those from before the
    call. *)
Theorem setSVG_updates_size_synchronously
        (loadString : string -> SvgRenderer -> completion SvgRenderer)
        (svgData : string) (rotationCenter : option point)
        (this : SVGSkin) (renderer : SvgRenderer) :
  loadString svgData (_svgRenderer this) = Normal renderer ->
  exists this',
    setSVG loadString svgData rotationCenter this = Normal this'
    /\ size this' = svg_size renderer
    /\ _viewOffset this' = svg_viewOffset renderer
    /\ _rawRotationCenter this' = (NaN, NaN)
    /\ pending this'
       = pending this
         ++ [{| draw_scale := Num 1;
                draw_onFinish := SetSVG_onFinish rotationCenter |}]
    /\ _texture this' = _texture this
    /\ _silhouette this' = _silhouette this
    /\ _textureScale this' = _textureScale this
    /\ _maxTextureScale this' = _maxTextureScale this.
Proof.
  intros Hload. unfold setSVG. rewrite Hload.
  eexists. split; [reflexivity|]. repeat split.
Qed.

Lemma setSVG_updates_size_synchronously_witness :
  size Fixture.upgraded = (Num 6, Num 300)
  /\ exists this',
    setSVG Fixture.loadString "<svg></svg>" None Fixture.upgraded
    = Normal this'
    /\ size this' = (Num 11, Num 300)
    /\ _viewOffset this' = (Num 5, Num 7)
    /\ pending this'
       = [Fixture.upgradeRequest; Fixture.loadRequest].
Proof.
  split; [reflexivity|].
  destruct (setSVG_updates_size_synchronously
              Fixture.loadString "<svg></svg>" None Fixture.upgraded
              {| svg_size := (Num 11, Num 300);
                 svg_viewOffset := (Num 5, Num 7);
                 canvas := Fixture.bitmap 300 300 |} eq_refl)
    as (this' & Hset & Hsize & Hoff & _ & Hpending & _).
  exists this'. repeat split; assumption.
Defined.

(** C9.  When the renderer rejects the source, [loadString] throws,
    [setSVG] throws in turn, and [size], [_viewOffset] and everything else
    of the skin but the renderer are as before the call. *)
Theorem setSVG_rejected_keeps_size
        (loadString : string -> SvgRenderer -> completion SvgRenderer)
        (svgData : string) (rotationCenter : option point)
        (this : SVGSkin) (renderer : SvgRenderer) :
  loadString svgData (_svgRenderer this) = Throw renderer ->
  exists this',
    setSVG loadString svgData rotationCenter this = Throw this'
    /\ size this' = size this
    /\ _viewOffset this' = _viewOffset this
    /\ this' = set_svgRenderer this renderer.
Proof.
  intros Hload. unfold setSVG. rewrite Hload.
  eexists. split; [reflexivity|]. repeat split.
Qed.

Lemma setSVG_rejected_keeps_size_witness :
  exists this',
    setSVG Fixture.loadString EmptyString None (Fixture.loaded 300 300)
    = Throw this'
    /\ size this' = (Num 6, Num 300)
    /\ _viewOffset this' = (Num 5, Num 7).
Proof.
  destruct (setSVG_rejected_keeps_size
              Fixture.loadString EmptyString None (Fixture.loaded 300 300)
              (_svgRenderer (Fixture.loaded 300 300)) eq_refl)
    as (this' & Hset & Hsize & Hoff & _).
  exists this'. repeat split; assumption.
Defined.

Lemma setSVG_for_keeps fuel maxDimension :
  forall testScale this this',
    setSVG_for fuel maxDimension testScale this = Some this' ->
    _textureScale this' = _textureScale this
    /\ _texture this' = _texture this
    /\ _silhouette this' = _silhouette this
    /\ effects this' = effects this.
Proof.
  induction fuel as [|fuel IH]; intros testScale this this' H;
    [discriminate|].
  cbn [setSVG_for] in H.
  destruct (leb (mul maxDimension testScale) MAX_TEXTURE_DIMENSION).
  - apply IH in H. exact H.
  - injection H as <-. repeat split.
Qed.

Lemma setRotationCenter_silhouette x y this :
  _silhouette (setRotationCenter x y this) = _silhouette this.
Proof.
  unfold setRotationCenter. destruct (_ || _); reflexivity.
Qed.

(** The callback of [setSVG] uploads the canvas, whatever the scale was. *)
Lemma setSVG_onFinish_uploads calculateRotationCenter fuel rotationCenter
      this this' :
  setSVG_onFinish calculateRotationCenter fuel rotationCenter this
  = Some this' ->
  _textureScale this' = Num 1
  /\ _texture this' = Some (canvas (_svgRenderer this))
  /\ _silhouette this' = Some (canvas (_svgRenderer this)).
Proof.
  unfold setSVG_onFinish. intros H.
  destruct (setSVG_for fuel _ _ _) as [this3|] eqn:E; [|discriminate].
  injection H as <-.
  apply setSVG_for_keeps in E. destruct E as (Hc & Ht & Hs & _).
  set (rc := match rotationCenter with
             | Some rc => rc
             | None => calculateRotationCenter this3
             end).
  destruct (setRotationCenter_scales (fst rc) (snd rc) this3) as [Hc' _].
  assert (H : _textureScale this3 = Num 1
              /\ _texture this3 = Some (canvas (_svgRenderer this))
              /\ _silhouette this3 = Some (canvas (_svgRenderer this))).
  { rewrite Hc, Ht, Hs. destruct this as [r [t|] c m sz vo raw rot sil pe ef];
      repeat split. }
  destruct H as (H1 & H2 & H3).
  split; [|split].
  - change (_textureScale (setRotationCenter (fst rc) (snd rc) this3) = Num 1).
    now rewrite Hc'.
  - change (_texture (setRotationCenter (fst rc) (snd rc) this3)
            = Some (canvas (_svgRenderer this))).
    now rewrite setRotationCenter_texture.
  - change (_silhouette (setRotationCenter (fst rc) (snd rc) this3)
            = Some (canvas (_svgRenderer this))).
    now rewrite setRotationCenter_silhouette.
Qed.

(** ** The scales of the reachable states *)

(** C3, as the code has it.  In every reachable state the texture scale is
    a power of two.  Once the draw of a load has finished it does not
    exceed the maximum, itself a power of two; until then the skin has
    the constructor's scale 1 and maximum 0. *)
Theorem texture_scale_invariant
        (loadString : string -> SvgRenderer -> completion SvgRenderer)
        (calculateRotationCenter : SVGSkin -> point)
        (ls : list label) (this : SVGSkin) :
  run loadString calculateRotationCenter ls this ->
  (exists k, _textureScale this = pow2 k)
  /\ if load_completed ls
     then leb (_textureScale this) (_maxTextureScale this) = true
          /\ exists b, _maxTextureScale this = pow2 b
     else _textureScale this = Num 1 /\ _maxTextureScale this = Num 0.
Proof.
  intros Hrun. apply run_scales in Hrun.
  destruct (load_completed ls).
  - destruct Hrun as (a & b & Hab & Hcur & Hmax).
    rewrite Hcur, Hmax, pow2_le.
    repeat split; [now exists a|now apply Nat.leb_le|now exists b].
  - destruct Hrun as [[Hcur Hmax] _].
    repeat split; [now exists 0%nat|assumption|assumption].
Qed.

Lemma texture_scale_invariant_witness :
  (exists k, _textureScale Fixture.reloading = pow2 k)
  /\ leb (_textureScale Fixture.reloading)
         (_maxTextureScale Fixture.reloading) = true
  /\ exists b, _maxTextureScale Fixture.reloading = pow2 b.
Proof.
  exact (texture_scale_invariant
           Fixture.loadString Fixture.calculateRotationCenter _
           Fixture.reloading run_reloading).
Defined.

(** C3 as stated fails in the freshly constructed skin: its scale 1
    exceeds its maximum 0. *)
Lemma constructor_scale_exceeds_maximum :
  reachable Fixture.loadString Fixture.calculateRotationCenter constructor
  /\ _textureScale constructor = Num 1
  /\ _maxTextureScale constructor = Num 0
  /\ leb (_textureScale constructor) (_maxTextureScale constructor) = false
  /\ ltb (_maxTextureScale constructor) (_textureScale constructor) = true.
Proof.
  repeat split. exists []. apply run_constructor.
Qed.

(** C5.  From a reachable state every sequence of [getTexture] calls
    returns, and the texture scale after any prefix of it is at most the
    scale after the whole sequence; a request of 200 percent followed by
    one of 50 percent leaves the scale the first request reached. *)
Theorem getTexture_never_downgrades
        (loadString : string -> SvgRenderer -> completion SvgRenderer)
        (calculateRotationCenter : SVGSkin -> point)
        (this : SVGSkin) (before after : list (option point)) :
  reachable loadString calculateRotationCenter this ->
  exists fuel0 mid this',
    (forall fuel, (fuel0 <= fuel)%nat ->
       getTexture_all fuel before this = Some mid
       /\ getTexture_all fuel (before ++ after) this = Some this')
    /\ leb (_textureScale this) (_textureScale mid) = true
    /\ leb (_textureScale mid) (_textureScale this') = true
    /\ (forall s200 s50,
          before = [s200] -> after = [s50] ->
          strict_eq (spec_scaleMax s200) (Num 200) = true ->
          strict_eq (spec_scaleMax s50) (Num 50) = true ->
          _textureScale this' = _textureScale mid).
Proof.
  intros Hreach.
  apply reachable_scale_inv in Hreach.
  destruct (getTexture_all_inv before this Hreach)
    as (fuel1 & mid & Hbefore & Hle1 & Hinv1).
  destruct (getTexture_all_inv after mid Hinv1)
    as (fuel2 & this' & Hafter & Hle2 & Hinv2).
  exists (Nat.max fuel1 fuel2), mid, this'. repeat split; try assumption.
  - apply Hbefore. lia.
  - rewrite getTexture_all_app, Hbefore by lia. apply Hafter. lia.
  - intros s200 s50 _ -> _ H50.
    specialize (Hafter fuel2 (Nat.le_refl _)). cbn [getTexture_all] in Hafter.
    destruct (getTexture fuel2 s50 mid) as [[texture last]|] eqn:E;
      [|discriminate].
    injection Hafter as ->.
    destruct (getTexture_inv _ _ _ _ _ Hinv1 E)
      as (n & Hset & _ & _ & Hcur & _).
    rewrite Hcur.
    now rewrite (settles_unique _ _ _ _ Hset (request_50_stays _ _ Hinv1 H50)).
Qed.

Lemma getTexture_never_downgrades_witness :
  exists fuel0 mid this',
    (forall fuel, (fuel0 <= fuel)%nat ->
       getTexture_all fuel [Fixture.request 200] (Fixture.loaded 300 300)
       = Some mid
       /\ getTexture_all fuel [Fixture.request 200; Fixture.request 50]
                         (Fixture.loaded 300 300) = Some this')
    /\ _textureScale this' = _textureScale mid.
Proof.
  destruct (getTexture_never_downgrades
              Fixture.loadString Fixture.calculateRotationCenter
              (Fixture.loaded 300 300)
              [Fixture.request 200] [Fixture.request 50]
              (ex_intro _ _ run_loaded))
    as (fuel0 & mid & this' & Hrun & _ & _ & Hsame).
  exists fuel0, mid, this'. split; [exact Hrun|].
  apply (Hsame _ _ eq_refl eq_refl eq_refl eq_refl).
Defined.

(** ** Finished draws *)

Lemma load_completion_returns calculateRotationCenter rotationCenter this :
  (0 < width (canvas (_svgRenderer this)))%Z ->
  (0 < height (canvas (_svgRenderer this)))%Z ->
  exists this',
    forall fuel, (12 <= fuel)%nat ->
      setSVG_onFinish calculateRotationCenter fuel rotationCenter this
      = Some this'.
Proof.
  intros HW HH.
  destruct (setSVG_onFinish_scales calculateRotationCenter rotationCenter
              this HW HH) as (n & this' & Hrun & _).
  now exists this'.
Qed.

(** C4, as the code has it.  The callback of [getTexture] compares the
    texture scale with the scale it was queued for before it touches the
    texture or the silhouette: when they differ the finished draw leaves
    the skin as it was, apart from the canvas the renderer painted; when
    they agree the bitmap is uploaded and handed to the silhouette.  The
    callback of [setSVG] makes no comparison: whatever the texture scale
    is, it sets the scale to 1, uploads the bitmap and updates the
    silhouette. *)
Theorem finished_draw_checks_scale
        (calculateRotationCenter : SVGSkin -> point)
        (request : DrawRequest) (bitmap : ImageData) (this : SVGSkin) :
  (0 < width bitmap)%Z ->
  (0 < height bitmap)%Z ->
  match draw_onFinish request with
  | GetTexture_onFinish newScale =>
      forall fuel,
      exists this',
        finish calculateRotationCenter fuel request bitmap this = Some this'
        /\ (strict_ne (_textureScale this) newScale = true ->
            this' = paint bitmap this
            /\ _texture this' = _texture this
            /\ _silhouette this' = _silhouette this
            /\ effects this' = effects this)
        /\ (strict_eq (_textureScale this) newScale = true ->
            _silhouette this' = Some bitmap
            /\ (_texture this <> None -> _texture this' = Some bitmap))
  | SetSVG_onFinish rotationCenter =>
      exists this',
        (forall fuel, (12 <= fuel)%nat ->
           finish calculateRotationCenter fuel request bitmap this
           = Some this')
        /\ _textureScale this' = Num 1
        /\ _texture this' = Some bitmap
        /\ _silhouette this' = Some bitmap
  end.
Proof.
  intros HW HH.
  destruct (draw_onFinish request) as [rotationCenter|newScale] eqn:Hcb.
  - destruct (load_completion_returns calculateRotationCenter rotationCenter
                (paint bitmap this) HW HH) as (this' & Hrun).
    exists this'. split.
    + intros fuel Hf. unfold finish. rewrite Hcb. now apply Hrun.
    + apply (setSVG_onFinish_uploads calculateRotationCenter 12 rotationCenter
               (paint bitmap this)).
      apply Hrun. apply le_n.
  - intros fuel. unfold finish. rewrite Hcb.
    eexists. split; [reflexivity|].
    unfold getTexture_onFinish, strict_ne.
    change (_textureScale (paint bitmap this)) with (_textureScale this).
    destruct (strict_eq (_textureScale this) newScale); split;
      try discriminate; intros _.
    + split; [reflexivity|].
      destruct this as [r [t|] c m sz vo raw rot sil pe ef]; intros Ht;
        [reflexivity|now elim Ht].
    + repeat split.
Qed.

Lemma finished_draw_checks_scale_witness :
  exists this',
    finish Fixture.calculateRotationCenter 0 Fixture.upgradeRequest
           (Fixture.bitmap 600 600)
           (set_pending (Fixture.loaded 300 300) [])
    = Some this'
    /\ _texture this' = Some (Fixture.bitmap 300 300)
    /\ _silhouette this' = Some (Fixture.bitmap 300 300).
Proof.
  destruct (finished_draw_checks_scale
              Fixture.calculateRotationCenter Fixture.upgradeRequest
              (Fixture.bitmap 600 600)
              (set_pending (Fixture.loaded 300 300) [])
              eq_refl eq_refl 0%nat)
    as (this' & Hrun & Hstale & _).
  exists this'. split; [exact Hrun|].
  destruct (Hstale eq_refl) as (_ & Ht & Hs & _).
  split; [exact Ht|exact Hs].
Defined.

(** C4 as stated fails for the callback of [setSVG]: [setSVG] is called
    again while the texture scale is 2; when its draw at scale 1 finishes
    the scale still is 2, and the bitmap is uploaded all the same. *)
Lemma load_completion_uploads_at_other_scale :
  reachable Fixture.loadString Fixture.calculateRotationCenter
            Fixture.reloading
  /\ pending Fixture.reloading = [Fixture.upgradeRequest] ++ [Fixture.loadRequest]
  /\ _textureScale Fixture.reloading = Num 2
  /\ draw_scale Fixture.loadRequest = Num 1
  /\ _texture Fixture.reloading = Some (Fixture.bitmap 300 300)
  /\ _silhouette Fixture.reloading = Some (Fixture.bitmap 300 300)
  /\ exists this',
       finish Fixture.calculateRotationCenter 12 Fixture.loadRequest
              (Fixture.bitmap 10 10)
              (set_pending Fixture.reloading [Fixture.upgradeRequest])
       = Some this'
       /\ _texture this' = Some (Fixture.bitmap 10 10)
       /\ _silhouette this' = Some (Fixture.bitmap 10 10).
Proof.
  split; [eexists; apply run_reloading|].
  repeat split.
  eexists. split; [vm_compute; reflexivity|]. split; reflexivity.
Qed.

(** ** The rotation center *)

(** C7.  A call [setRotationCenter(x, y)] that applies, [x] or [y] not
    being the stored raw coordinate, stores [(x, y)] as the raw rotation
    center and calls the base class with
    [(x - viewOffset[0], y - viewOffset[1])], which becomes the base
    rotation center. *)
Theorem setRotationCenter_applies (x y : number) (this : SVGSkin) :
  strict_ne x (fst (_rawRotationCenter this))
  || strict_ne y (snd (_rawRotationCenter this)) = true ->
  _rawRotationCenter (setRotationCenter x y this) = (x, y)
  /\ _rotationCenter (setRotationCenter x y this)
     = (sub x (fst (_viewOffset this)), sub y (snd (_viewOffset this)))
  /\ effects (setRotationCenter x y this)
     = Super_setRotationCenter (sub x (fst (_viewOffset this)))
                               (sub y (snd (_viewOffset this)))
       :: effects this
  /\ _viewOffset (setRotationCenter x y this) = _viewOffset this.
Proof.
  intros Happlies. unfold setRotationCenter. rewrite Happlies.
  repeat split.
Qed.

Lemma setRotationCenter_applies_witness :
  _viewOffset (Fixture.loaded 300 300) = (Num 5, Num 7)
  /\ _rawRotationCenter
       (setRotationCenter (Num 20) (Num 30) (Fixture.loaded 300 300))
     = (Num 20, Num 30)
  /\ _rotationCenter
       (setRotationCenter (Num 20) (Num 30) (Fixture.loaded 300 300))
     = (sub (Num 20) (Num 5), sub (Num 30) (Num 7)).
Proof.
  split; [reflexivity|].
  destruct (setRotationCenter_applies
              (Num 20) (Num 30) (Fixture.loaded 300 300) eq_refl)
    as (Hraw & Hbase & _).
  split; [exact Hraw|exact Hbase].
Defined.

(** C8.  Called twice in a row with the same coordinates, neither of them
    NaN, [setRotationCenter] does nothing the second time: the skin, and
    with it the calls made on the base class, are those left by the first
    call.  After [setSVG] has returned the raw rotation center is
    [NaN, NaN]; in any later state that still has it the next
    [setRotationCenter] applies whatever its arguments: it calls the base
    class once. *)
Theorem setRotationCenter_idempotent
        (loadString : string -> SvgRenderer -> completion SvgRenderer)
        (svgData : string) (rotationCenter : option point)
        (x y : number) (this before loaded later : SVGSkin) :
  (x <> NaN -> y <> NaN ->
   setRotationCenter x y (setRotationCenter x y this)
   = setRotationCenter x y this
   /\ effects (setRotationCenter x y (setRotationCenter x y this))
      = effects (setRotationCenter x y this))
  /\ (setSVG loadString svgData rotationCenter before = Normal loaded ->
      _rawRotationCenter later = _rawRotationCenter loaded ->
      _rawRotationCenter loaded = (NaN, NaN)
      /\ _rawRotationCenter (setRotationCenter x y later) = (x, y)
      /\ effects (setRotationCenter x y later)
         = Super_setRotationCenter (sub x (fst (_viewOffset later)))
                                   (sub y (snd (_viewOffset later)))
           :: effects later).
Proof.
  split.
  - intros Hx Hy.
    assert (Hsame : setRotationCenter x y (setRotationCenter x y this)
                    = setRotationCenter x y this).
    { destruct x as [|x]; [now elim Hx|]. destruct y as [|y]; [now elim Hy|].
      unfold setRotationCenter at 2 3.
      destruct (strict_ne (Num x) (fst (_rawRotationCenter this))
                || strict_ne (Num y) (snd (_rawRotationCenter this))) eqn:E.
      - unfold setRotationCenter.
        cbn [_rawRotationCenter Skin_setRotationCenter set_rotationCenter
             perform set_effects set_rawRotationCenter fst snd].
        unfold strict_ne, strict_eq. now rewrite !Qeq_bool_refl.
      - unfold setRotationCenter. now rewrite E. }
    split; [exact Hsame|]. now rewrite Hsame.
  - intros Hset Hlater. unfold setSVG in Hset.
    destruct (loadString svgData (_svgRenderer before)) as [r|r];
      [|discriminate].
    injection Hset as <-.
    assert (Happlies : forall (a : number) (b : bool),
               strict_ne a NaN || b = true).
    { intros [|a] b; reflexivity. }
    split; [reflexivity|].
    cbn [_rawRotationCenter _draw set_pending perform set_effects
         set_rawRotationCenter] in Hlater.
    unfold setRotationCenter. rewrite Hlater. cbn [fst snd].
    rewrite Happlies. split; reflexivity.
Qed.

Lemma setRotationCenter_idempotent_witness :
  effects (setRotationCenter (Num 20) (Num 30)
             (setRotationCenter (Num 20) (Num 30) Fixture.loading))
  = Super_setRotationCenter (sub (Num 20) (Num 5)) (sub (Num 30) (Num 7))
    :: effects Fixture.loading.
Proof.
  destruct (setRotationCenter_idempotent
              Fixture.loadString "<svg/>" None (Num 20) (Num 30)
              Fixture.loading constructor Fixture.loading Fixture.loading)
    as [Htwice Hfirst].
  destruct (Htwice ltac:(discriminate) ltac:(discriminate)) as [_ ->].
  destruct (Hfirst eq_refl eq_refl) as (_ & _ & ->).
  reflexivity.
Defined.

(** * Further properties of the code *)

(** ** The shape of the steps *)

Lemma pow2_inj (a b : nat) : pow2 a = pow2 b -> a = b.
Proof.
  unfold pow2, of_Z, inject_Z. intros H. injection H as H.
  apply Z.pow_inj_r in H; lia.
Qed.

Lemma scale_inv_pow2 this :
  scale_inv this -> exists a, _textureScale this = pow2 a.
Proof.
  intros [[H _]|(a & b & _ & H & _)]; [now exists 0%nat|now exists a].
Qed.

(** A [getTexture] call that returns left the skin alone or queued one
    draw, at a power of two above the scale it found. *)
Lemma getTexture_shape fuel scale this texture this' :
  scale_inv this ->
  getTexture fuel scale this = Some (texture, this') ->
  this' = this
  \/ exists k, (1 <= k)%nat
       /\ strict_ne (_textureScale this) (pow2 k) = true
       /\ this' = _draw (pow2 k) (GetTexture_onFinish (pow2 k))
                       (set_textureScale this (pow2 k)).
Proof.
  intros Hinv Hget.
  destruct (getTexture_inv _ _ _ _ _ Hinv Hget)
    as (n & Hset & _ & -> & _).
  destruct (getTexture_while_settles this (spec_requestedScale scale this) Hinv)
    as (n' & Hset' & _ & Hne & _).
  rewrite <- (settles_unique _ _ _ _ Hset Hset') in Hne.
  unfold spec_after_getTexture. rewrite Hne.
  destruct n as [|n]; [now left|right].
  destruct (scale_inv_pow2 this Hinv) as [a Ha].
  exists (a + S n)%nat. rewrite Ha in *. rewrite doubled_pow2 in *.
  repeat split; [lia|assumption].
Qed.

Lemma setSVG_for_frame fuel maxDimension :
  forall testScale this this',
    setSVG_for fuel maxDimension testScale this = Some this' ->
    this' = set_maxTextureScale this (_maxTextureScale this').
Proof.
  induction fuel as [|fuel IH]; intros testScale this this' H;
    [discriminate|].
  cbn [setSVG_for] in H.
  destruct (leb (mul maxDimension testScale) MAX_TEXTURE_DIMENSION).
  - apply IH in H. exact H.
  - injection H as <-. now destruct this.
Qed.

(** The callback of [setSVG], when it returns, has uploaded the canvas and
    then called [setRotationCenter] and emitted the event. *)
Lemma setSVG_onFinish_shape calculateRotationCenter fuel rotationCenter
      this this' :
  setSVG_onFinish calculateRotationCenter fuel rotationCenter this
  = Some this' ->
  exists m x y,
    this' = perform (setRotationCenter x y (uploaded m this)) Emit_WasAltered.
Proof.
  unfold setSVG_onFinish. intros H.
  destruct (setSVG_for fuel _ _ _) as [this3|] eqn:E; [|discriminate].
  injection H as <-.
  apply setSVG_for_frame in E.
  exists (_maxTextureScale this3).
  eexists. eexists.
  replace (uploaded (_maxTextureScale this3) this) with this3; [reflexivity|].
  rewrite E at 1.
  destruct this as [r [t|] c m sz vo raw rot sil pe ef]; reflexivity.
Qed.

(** [setRotationCenter] returns the skin itself or stores its arguments
    and calls the base class. *)
Lemma setRotationCenter_shape x y this :
  setRotationCenter x y this = this
  \/ setRotationCenter x y this
     = Skin_setRotationCenter (sub x (fst (_viewOffset this)))
                              (sub y (snd (_viewOffset this)))
                              (set_rawRotationCenter this (x, y)).
Proof.
  unfold setRotationCenter. destruct (_ || _); [right|left]; reflexivity.
Qed.

Lemma dispose_texture this : _texture (dispose this) = None.
Proof.
  unfold dispose. destruct (_texture this) eqn:E; [reflexivity|exact E].
Qed.

Lemma getTexture_onFinish_shape newScale this :
  getTexture_onFinish newScale this = this
  \/ (strict_eq (_textureScale this) newScale = true
      /\ getTexture_onFinish newScale this
         = silhouette_update (canvas (_svgRenderer this))
             (gl_texImage2D (canvas (_svgRenderer this)) this)).
Proof.
  unfold getTexture_onFinish.
  destruct (strict_eq _ _); [right|left]; auto.
Qed.

(** ** Invariants kept by every step *)

Section Invariants.

Variable loadString : string -> SvgRenderer -> completion SvgRenderer.
Variable calculateRotationCenter : SVGSkin -> point.

Local Abbreviation step := (step loadString calculateRotationCenter).
Local Abbreviation run := (run loadString calculateRotationCenter).

(** Induction over the reachable states, with the scales well formed. *)
Lemma run_invariant (P : SVGSkin -> Prop) :
  P constructor ->
  (forall this l this',
     scale_inv this -> P this -> step this l this' -> P this') ->
  forall ls this, run ls this -> P this.
Proof.
  intros Hinit Hstep ls this Hrun.
  induction Hrun as [|ls l this this' Hrun IH Hs]; [assumption|].
  apply (Hstep this l this'); [|assumption|assumption].
  apply reachable_scale_inv with loadString calculateRotationCenter.
  now exists ls.
Qed.

Lemma setSVG_keeps_texture svgData rotationCenter this this' :
  setSVG loadString svgData rotationCenter this = Normal this'
  \/ setSVG loadString svgData rotationCenter this = Throw this' ->
  _texture this' = _texture this /\ _silhouette this' = _silhouette this.
Proof.
  intros [H|H];
    destruct (setSVG_scales _ _ _ _ _ H) as (_ & _ & Ht & Hs); now split.
Qed.

(** X1.  In every reachable state, while the texture exists the silhouette
    was built from the very bitmap the texture holds. *)
Theorem texture_and_silhouette_in_sync (ls : list label) (this : SVGSkin) :
  run ls this ->
  forall textureData,
    _texture this = Some textureData ->
    _silhouette this = Some textureData.
Proof.
  revert ls this.
  apply (run_invariant
           (fun this => forall textureData,
                _texture this = Some textureData ->
                _silhouette this = Some textureData)); [discriminate|].
  intros this l this' Hinv IH Hstep.
  destruct Hstep as [svgData rotationCenter this this' Hset
                    |svgData rotationCenter this this' Hset
                    |x y this
                    |fuel scale this texture this' Hget
                    |this
                    |fuel before request after bitmap this this'
                          Hpending HW HH Hfinish].
  - destruct (setSVG_keeps_texture _ _ _ _ (or_introl Hset)) as [-> ->].
    exact IH.
  - destruct (setSVG_keeps_texture _ _ _ _ (or_intror Hset)) as [-> ->].
    exact IH.
  - rewrite setRotationCenter_texture, setRotationCenter_silhouette. exact IH.
  - destruct (getTexture_inv _ _ _ _ _ Hinv Hget)
      as (_ & _ & _ & _ & _ & _ & -> & -> & _). exact IH.
  - rewrite dispose_texture. discriminate.
  - unfold finish in Hfinish.
    destruct (draw_onFinish request) as [rotationCenter|newScale].
    + apply setSVG_onFinish_uploads in Hfinish.
      destruct Hfinish as (_ & -> & ->). now intros d [= <-].
    + injection Hfinish as <-.
      destruct (getTexture_onFinish_shape newScale
                  (paint bitmap (set_pending this (before ++ after))))
        as [->|[_ ->]].
      * exact IH.
      * cbn. destruct (_texture this); [now intros d [= <-]|discriminate].
Qed.

(** X2.  The texture exists exactly when, among the steps made, the latest
    load completion or disposal is a load completion; and that texture,
    null or not, is what a [getTexture] call returns. *)
Theorem texture_exists_iff_live (ls : list label) (this : SVGSkin)
        (scale : option point) :
  run ls this ->
  (_texture this = None <-> texture_live ls = false)
  /\ exists n, forall fuel, (n < fuel)%nat ->
       exists this',
         getTexture fuel scale this = Some (_texture this, this').
Proof.
  intros Hrun. split.
  - induction Hrun as [|ls l this this' Hrun IH Hstep]; [now split|].
    assert (Hinv : scale_inv this).
    { apply reachable_scale_inv with loadString calculateRotationCenter.
      now exists ls. }
    assert (Hkeep : texture_live (l :: ls) = texture_live ls ->
                    (_texture this' = None <-> _texture this = None) ->
                    (_texture this' = None <-> texture_live (l :: ls) = false)).
    { intros -> ->. exact IH. }
    destruct Hstep as [svgData rotationCenter this this' Hset
                      |svgData rotationCenter this this' Hset
                      |x y this
                      |fuel scale' this texture this' Hget
                      |this
                      |fuel before request after bitmap this this'
                            Hpending HW HH Hfinish].
    + destruct (setSVG_keeps_texture _ _ _ _ (or_introl Hset)) as [Ht _].
      apply Hkeep; [reflexivity|]. now rewrite Ht.
    + destruct (setSVG_keeps_texture _ _ _ _ (or_intror Hset)) as [Ht _].
      apply Hkeep; [reflexivity|]. now rewrite Ht.
    + apply Hkeep; [reflexivity|]. now rewrite setRotationCenter_texture.
    + destruct (getTexture_inv _ _ _ _ _ Hinv Hget)
        as (_ & _ & _ & _ & _ & _ & Ht & _).
      apply Hkeep; [reflexivity|]. now rewrite Ht.
    + rewrite dispose_texture. now split.
    + unfold finish in Hfinish.
      destruct request as [s [rotationCenter|newScale]];
        cbn [draw_onFinish] in Hfinish.
      * apply setSVG_onFinish_uploads in Hfinish.
        destruct Hfinish as (_ & -> & _). now split.
      * injection Hfinish as <-.
        apply Hkeep; [reflexivity|].
        destruct (getTexture_onFinish_shape newScale
                    (paint bitmap (set_pending this (before ++ after))))
          as [->|[_ ->]]; cbn; [reflexivity|].
        destruct (_texture this); now split.
  - assert (Hinv : scale_inv this).
    { apply reachable_scale_inv with loadString calculateRotationCenter.
      now exists ls. }
    destruct (getTexture_spec this scale Hinv) as (n & _ & _ & Hget & _).
    exists n. intros fuel Hf. eexists. now apply Hget.
Qed.

Lemma last_Super_frame (this this' : SVGSkin) :
  _rawRotationCenter this' = _rawRotationCenter this ->
  _viewOffset this' = _viewOffset this ->
  last_Super_setRotationCenter (effects this')
  = last_Super_setRotationCenter (effects this) ->
  rotationCenter_consistent this -> rotationCenter_consistent this'.
Proof.
  unfold rotationCenter_consistent. intros -> -> ->. exact (fun H => H).
Qed.

Lemma setRotationCenter_consistent x y this :
  rotationCenter_consistent this ->
  rotationCenter_consistent (setRotationCenter x y this).
Proof.
  intros H. destruct (setRotationCenter_shape x y this) as [->| ->];
    [assumption|].
  right. reflexivity.
Qed.

(** X3.  In every reachable state the raw rotation center is the
    unresolved [NaN, NaN], or the latest call of the base class's
    [setRotationCenter] was made with the raw rotation center minus the
    current view offset. *)
Theorem rotationCenter_stays_consistent (ls : list label) (this : SVGSkin) :
  run ls this -> rotationCenter_consistent this.
Proof.
  revert ls this. apply (run_invariant rotationCenter_consistent); [now left|].
  intros this l this' Hinv IH Hstep.
  destruct Hstep as [svgData rotationCenter this this' Hset
                    |svgData rotationCenter this this' Hset
                    |x y this
                    |fuel scale this texture this' Hget
                    |this
                    |fuel before request after bitmap this this'
                          Hpending HW HH Hfinish].
  - unfold setSVG in Hset.
    destruct (loadString svgData (_svgRenderer this)); [|discriminate].
    injection Hset as <-. now left.
  - unfold setSVG in Hset.
    destruct (loadString svgData (_svgRenderer this)); [discriminate|].
    injection Hset as <-. exact IH.
  - now apply setRotationCenter_consistent.
  - destruct (getTexture_shape _ _ _ _ _ Hinv Hget) as [->|(k & _ & _ & ->)];
      [exact IH|].
    revert IH. now apply last_Super_frame.
  - unfold dispose.
    destruct (_texture this); revert IH; now apply last_Super_frame.
  - unfold finish in Hfinish.
    destruct (draw_onFinish request) as [rotationCenter|newScale].
    + apply setSVG_onFinish_shape in Hfinish.
      destruct Hfinish as (m & x & y & ->).
      assert (H : rotationCenter_consistent
                    (setRotationCenter x y
                       (uploaded m
                          (paint bitmap (set_pending this (before ++ after)))))).
      { apply setRotationCenter_consistent.
        revert IH. apply last_Super_frame; try reflexivity.
        cbn. now destruct (_texture this). }
      revert H. now apply last_Super_frame.
    + injection Hfinish as <-.
      destruct (getTexture_onFinish_shape newScale
                  (paint bitmap (set_pending this (before ++ after))))
        as [->|[_ ->]]; revert IH; now apply last_Super_frame.
Qed.

Lemma setRotationCenter_pending x y this :
  pending (setRotationCenter x y this) = pending this.
Proof.
  unfold setRotationCenter. destruct (_ || _); reflexivity.
Qed.

(** X4.  In every reachable state each pending draw is a load at scale 1
    or an upgrade at a power of two from 2 on, whose callback compares the
    texture scale with the very scale of that draw. *)
Theorem pending_draws_well_formed (ls : list label) (this : SVGSkin) :
  run ls this -> Forall request_well_formed (pending this).
Proof.
  revert ls this.
  apply (run_invariant
           (fun this => Forall request_well_formed (pending this)));
    [constructor|].
  intros this l this' Hinv IH Hstep.
  destruct Hstep as [svgData rotationCenter this this' Hset
                    |svgData rotationCenter this this' Hset
                    |x y this
                    |fuel scale this texture this' Hget
                    |this
                    |fuel before request after bitmap this this'
                          Hpending HW HH Hfinish].
  - unfold setSVG in Hset.
    destruct (loadString svgData (_svgRenderer this)); [|discriminate].
    injection Hset as <-. cbn.
    apply Forall_app. split; [exact IH|]. now repeat constructor.
  - unfold setSVG in Hset.
    destruct (loadString svgData (_svgRenderer this)); [discriminate|].
    injection Hset as <-. exact IH.
  - now rewrite setRotationCenter_pending.
  - destruct (getTexture_shape _ _ _ _ _ Hinv Hget) as [->|(k & Hk & _ & ->)];
      [exact IH|].
    cbn. apply Forall_app. split; [exact IH|].
    repeat constructor. now exists k.
  - unfold dispose. now destruct (_texture this).
  - assert (Hrest : Forall request_well_formed (before ++ after)).
    { rewrite Hpending in IH. apply Forall_app in IH.
      destruct IH as [Hb Ha]. apply Forall_app. split; [assumption|].
      now inversion Ha. }
    unfold finish in Hfinish.
    destruct (draw_onFinish request) as [rotationCenter|newScale].
    + apply setSVG_onFinish_shape in Hfinish.
      destruct Hfinish as (m & x & y & ->).
      cbn. now rewrite setRotationCenter_pending.
    + injection Hfinish as <-.
      destruct (getTexture_onFinish_shape newScale
                  (paint bitmap (set_pending this (before ++ after))))
        as [->|[_ ->]]; exact Hrest.
Qed.

End Invariants.

Lemma texture_and_silhouette_in_sync_witness :
  _silhouette Fixture.reloading = Some (Fixture.bitmap 300 300).
Proof.
  exact (texture_and_silhouette_in_sync
           Fixture.loadString Fixture.calculateRotationCenter _
           Fixture.reloading run_reloading (Fixture.bitmap 300 300) eq_refl).
Defined.

Lemma texture_exists_iff_live_witness :
  _texture (Fixture.loaded 300 300) = None
  <-> texture_live [L_finish Fixture.loadRequest (Fixture.bitmap 300 300);
                    L_setSVG "<svg/>" None] = false.
Proof.
  exact (proj1 (texture_exists_iff_live
                  Fixture.loadString Fixture.calculateRotationCenter _
                  (Fixture.loaded 300 300) None run_loaded)).
Defined.

Lemma rotationCenter_stays_consistent_witness :
  rotationCenter_consistent (Fixture.loaded 300 300).
Proof.
  exact (rotationCenter_stays_consistent
           Fixture.loadString Fixture.calculateRotationCenter _
           (Fixture.loaded 300 300) run_loaded).
Defined.

Lemma pending_draws_well_formed_witness :
  Forall request_well_formed [Fixture.upgradeRequest; Fixture.loadRequest].
Proof.
  exact (pending_draws_well_formed
           Fixture.loadString Fixture.calculateRotationCenter _
           Fixture.reloading run_reloading).
Defined.

(** ** The texture as a resource *)

Lemma setRotationCenter_textures x y this :
  textures_created (effects (setRotationCenter x y this))
  = textures_created (effects this)
  /\ textures_deleted (effects (setRotationCenter x y this))
     = textures_deleted (effects this).
Proof.
  destruct (setRotationCenter_shape x y this) as [->| ->]; now split.
Qed.

(** X5.  In every reachable state the textures created so far are the
    textures deleted so far, plus the one the skin holds if it holds one:
    a texture is created only when there is none and deleted only when
    there is one.  After [dispose] every texture created has been
    deleted. *)
Theorem textures_are_balanced
        (loadString : string -> SvgRenderer -> completion SvgRenderer)
        (calculateRotationCenter : SVGSkin -> point)
        (ls : list label) (this : SVGSkin) :
  run loadString calculateRotationCenter ls this ->
  textures_created (effects this)
  = (textures_deleted (effects this)
     + match _texture this with Some _ => 1 | None => 0 end)%nat
  /\ _texture (dispose this) = None
  /\ textures_created (effects (dispose this))
     = textures_deleted (effects (dispose this)).
Proof.
  intros Hrun.
  assert (Hbal : textures_created (effects this)
                 = (textures_deleted (effects this)
                    + match _texture this with Some _ => 1 | None => 0 end)%nat).
  { revert ls this Hrun.
    apply (run_invariant loadString calculateRotationCenter
             (fun this =>
                textures_created (effects this)
                = (textures_deleted (effects this)
                   + match _texture this with Some _ => 1 | None => 0 end)%nat));
      [reflexivity|].
    intros this l this' Hinv IH Hstep.
    destruct Hstep as [svgData rotationCenter this this' Hset
                      |svgData rotationCenter this this' Hset
                      |x y this
                      |fuel scale this texture this' Hget
                      |this
                      |fuel before request after bitmap this this'
                            Hpending HW HH Hfinish].
    - unfold setSVG in Hset.
      destruct (loadString svgData (_svgRenderer this)); [|discriminate].
      injection Hset as <-. exact IH.
    - unfold setSVG in Hset.
      destruct (loadString svgData (_svgRenderer this)); [discriminate|].
      injection Hset as <-. exact IH.
    - destruct (setRotationCenter_textures x y this) as [-> ->].
      now rewrite setRotationCenter_texture.
    - destruct (getTexture_shape _ _ _ _ _ Hinv Hget)
        as [->|(k & _ & _ & ->)]; exact IH.
    - unfold dispose. destruct (_texture this) eqn:E; cbn.
      + rewrite IH. lia.
      + now rewrite E.
    - unfold finish in Hfinish.
      destruct (draw_onFinish request) as [rotationCenter|newScale].
      + apply setSVG_onFinish_shape in Hfinish.
        destruct Hfinish as (m & x & y & ->).
        cbn [perform set_effects effects _texture textures_created
             textures_deleted].
        destruct (setRotationCenter_textures x y
                    (uploaded m
                       (paint bitmap (set_pending this (before ++ after)))))
          as [-> ->].
        rewrite setRotationCenter_texture. cbn.
        destruct (_texture this); cbn; lia.
      + injection Hfinish as <-.
        destruct (getTexture_onFinish_shape newScale
                    (paint bitmap (set_pending this (before ++ after))))
          as [->|[_ ->]]; [exact IH|].
        cbn. destruct (_texture this); exact IH. }
  split; [exact Hbal|]. split; [apply dispose_texture|].
  unfold dispose. destruct (_texture this); cbn; rewrite Hbal; lia.
Qed.

Lemma textures_are_balanced_witness :
  textures_created (effects (dispose Fixture.reloading)) = 1%nat
  /\ textures_created (effects (dispose Fixture.reloading))
     = textures_deleted (effects (dispose Fixture.reloading)).
Proof.
  split; [reflexivity|].
  exact (proj2 (proj2 (textures_are_balanced
                         Fixture.loadString Fixture.calculateRotationCenter _
                         Fixture.reloading run_reloading))).
Defined.

(** ** The size of the texture *)

(** X6.  From the completion of a load on a [W] x [H] bitmap until the
    next completion, whatever is called and whichever draws finish, the
    texture scale is 1 or the scaled bitmap fits the limit:
    [max(W, H) * scale <= MAX_TEXTURE_DIMENSION]. *)
Theorem texture_stays_within_limit
        (loadString : string -> SvgRenderer -> completion SvgRenderer)
        (calculateRotationCenter : SVGSkin -> point)
        (before : SVGSkin) (request : DrawRequest) (bitmap : ImageData)
        (loaded this : SVGSkin) :
  step loadString calculateRotationCenter before (L_finish request bitmap)
       loaded ->
  is_load_completion (L_finish request bitmap) = true ->
  within_load loadString calculateRotationCenter loaded this ->
  _textureScale this = Num 1
  \/ leb (mul (Math_max (of_Z (width bitmap)) (of_Z (height bitmap)))
              (_textureScale this))
         MAX_TEXTURE_DIMENSION = true.
Proof.
  intros Hstep Hload Hwithin.
  inversion Hstep as [| | | | |fuel bef req aft bm s s'
                               Hpending HW HH Hfinish]; subst.
  destruct request as [scale [rotationCenter|newScale]]; [|discriminate].
  unfold finish in Hfinish. cbn [draw_onFinish] in Hfinish.
  destruct (setSVG_onFinish_scales calculateRotationCenter rotationCenter
              (paint bitmap (set_pending before (bef ++ aft))) HW HH)
    as (n & this'' & Hrun & Hcur & Hmax & Hfit).
  change (width (canvas (_svgRenderer
                           (paint bitmap (set_pending before (bef ++ aft))))))
    with (width bitmap) in Hfit.
  change (height (canvas (_svgRenderer
                            (paint bitmap (set_pending before (bef ++ aft))))))
    with (height bitmap) in Hfit.
  pose proof (setSVG_onFinish_more _ _ _ _ _ Hfinish (Nat.max fuel 12)
                (Nat.le_max_l _ _)) as H1.
  rewrite Hrun in H1 by lia. injection H1 as ->.
  assert (Hinv : exists a, (a <= n)%nat /\ _textureScale this = pow2 a
                           /\ _maxTextureScale this = pow2 n).
  { clear Hstep Hfinish Hrun.
    induction Hwithin as [this|this mid l this' Hwithin IH Hs Hl].
    - exists 0%nat. repeat split; [lia|assumption|assumption].
    - destruct (IH Hmax Hcur) as (a & Ha & Hc & Hm).
      assert (Hsi : scale_inv mid) by (right; exists a, n; auto).
      destruct (step_within_load _ _ _ _ _ Hs Hl Hsi)
        as (Hm' & _ & [[_ H0]|(a' & b' & Hab & Hc' & Hb')] & _).
      + rewrite Hm', Hm in H0. now apply pow2_nonzero in H0.
      + rewrite Hm', Hm in Hb'. apply pow2_inj in Hb'. subst b'.
        exists a'. repeat split; [assumption|assumption|congruence]. }
  destruct Hinv as (a & Ha & Hc & _). rewrite Hc.
  destruct a as [|a]; [now left|right].
  rewrite Math_max_of_Z, fits_of_Z. apply Z.leb_le.
  assert (H : (Z.max (width bitmap) (height bitmap) * 2 ^ Z.of_nat n
               <= 2048)%Z) by (apply Hfit; lia).
  assert ((2 ^ Z.of_nat (S a) <= 2 ^ Z.of_nat n)%Z)
    by (apply Z.pow_le_mono_r; lia).
  nia.
Qed.

Lemma texture_stays_within_limit_witness :
  _textureScale Fixture.upgraded = Num 1
  \/ leb (mul (Math_max (of_Z 300) (of_Z 300)) (_textureScale Fixture.upgraded))
         MAX_TEXTURE_DIMENSION = true.
Proof.
  apply (texture_stays_within_limit
           Fixture.loadString Fixture.calculateRotationCenter
           Fixture.loading Fixture.loadRequest (Fixture.bitmap 300 300)
           (Fixture.loaded 300 300) Fixture.upgraded).
  - apply step_finish with (fuel := 12%nat) (before := []) (after := []);
      vm_compute; reflexivity.
  - reflexivity.
  - apply within_load_step
      with (mid := Fixture.loaded 300 300)
           (l := L_getTexture (Fixture.request 200)).
    + apply within_load_refl.
    + apply step_getTexture
        with (fuel := 12%nat) (texture := Some (Fixture.bitmap 300 300)).
      vm_compute. reflexivity.
    + reflexivity.
Defined.

(** ** Draws that finish out of order *)

(** X7.  Of two finished upgrade draws, one for the current texture scale
    and one for another scale, only the first counts, in whichever order
    they finish: either way the silhouette ends up built from the bitmap
    of the draw at the current scale, and so does the texture when there
    is one. *)
Theorem stale_upgrade_cannot_clobber
        (calculateRotationCenter : SVGSkin -> point)
        (fuel : nat) (current stale : DrawRequest)
        (currentScale staleScale : number)
        (fresh old : ImageData) (this : SVGSkin) :
  draw_onFinish current = GetTexture_onFinish currentScale ->
  draw_onFinish stale = GetTexture_onFinish staleScale ->
  strict_eq (_textureScale this) currentScale = true ->
  strict_ne (_textureScale this) staleScale = true ->
  exists mid1 mid2 end1 end2,
    finish calculateRotationCenter fuel stale old this = Some mid1
    /\ finish calculateRotationCenter fuel current fresh mid1 = Some end1
    /\ finish calculateRotationCenter fuel current fresh this = Some mid2
    /\ finish calculateRotationCenter fuel stale old mid2 = Some end2
    /\ _silhouette end1 = Some fresh
    /\ _silhouette end2 = Some fresh
    /\ _texture end1 = _texture end2
    /\ (_texture this <> None -> _texture end1 = Some fresh).
Proof.
  intros Hcur Hstale Heq Hne.
  unfold finish. rewrite Hcur, Hstale.
  do 4 eexists. repeat split; try reflexivity.
  all: unfold getTexture_onFinish; cbn [_textureScale paint set_svgRenderer];
    unfold strict_ne in Hne; apply negb_true_iff in Hne;
    try rewrite Heq; try rewrite Hne; cbn; try rewrite Heq; try rewrite Hne;
    cbn; try reflexivity.
  destruct (_texture this); [reflexivity|]. intros H. now elim H.
Qed.

Lemma stale_upgrade_cannot_clobber_witness :
  exists end1 end2,
    _silhouette end1 = Some (Fixture.bitmap 600 600)
    /\ _silhouette end2 = Some (Fixture.bitmap 600 600)
    /\ _texture end1 = _texture end2.
Proof.
  destruct (stale_upgrade_cannot_clobber
              Fixture.calculateRotationCenter 0
              Fixture.upgradeRequest
              {| draw_scale := Num 4;
                 draw_onFinish := GetTexture_onFinish (Num 4) |}
              (Num 2) (Num 4)
              (Fixture.bitmap 600 600) (Fixture.bitmap 1200 1200)
              Fixture.upgraded eq_refl eq_refl eq_refl eq_refl)
    as (mid1 & mid2 & end1 & end2 & _ & _ & _ & _ & H1 & H2 & H3 & _).
  exists end1, end2. repeat split; assumption.
Defined.

(** ** The scale a request selects *)

Lemma three_quarters (k : nat) (r : Q) :
  Qle_bool (1.5 * inject_Z (2 ^ Z.of_nat k)) r = true ->
  Qle_bool (0.75 * inject_Z (2 ^ Z.of_nat (S k))) r = true.
Proof.
  rewrite !Qle_bool_iff. intros H.
  rewrite Nat2Z.inj_succ, Z.pow_succ_r by lia.
  rewrite inject_Z_mult. change (inject_Z 2) with 2. lra.
Qed.

Lemma requestedScale_fresh (scale : option point) (this : SVGSkin) :
  scales_fresh this ->
  geb (spec_requestedScale scale this) (mul (Num 1.5) (_textureScale this))
  = false.
Proof.
  intros [Hcur Hmax]. unfold spec_requestedScale. rewrite Hcur, Hmax.
  destruct (div (spec_scaleMax scale) (Num 100)) as [|q]; [reflexivity|].
  unfold geb, leb, Math_min, mul. apply Qle_bool_false.
  destruct (Qle_bool q 0) eqn:E.
  - apply Qle_bool_iff in E. lra.
  - reflexivity.
Qed.

(** X8.  The scale a [getTexture] call settles on is the maximum, or the
    requested scale is below 1.5 times it; and when the call raised the
    scale, the requested scale is at least 0.75 times the new one: the
    texture is neither left more than 1.5 times too coarse nor made more
    than a third finer than asked. *)
Theorem getTexture_scale_bounds
        (loadString : string -> SvgRenderer -> completion SvgRenderer)
        (calculateRotationCenter : SVGSkin -> point)
        (this : SVGSkin) (scale : option point) (fuel : nat)
        (texture : option ImageData) (this' : SVGSkin) :
  reachable loadString calculateRotationCenter this ->
  getTexture fuel scale this = Some (texture, this') ->
  (_textureScale this' = _maxTextureScale this'
   \/ geb (spec_requestedScale scale this)
          (mul (Num 1.5) (_textureScale this')) = false)
  /\ (strict_ne (_textureScale this) (_textureScale this') = true ->
      geb (spec_requestedScale scale this)
          (mul (Num 0.75) (_textureScale this')) = true).
Proof.
  intros Hreach Hget.
  apply reachable_scale_inv in Hreach.
  destruct (getTexture_inv _ _ _ _ _ Hreach Hget)
    as (n & [Hlt Hstop] & _ & _ & Hcur & Hmax & _ & _ & _ & Hinv').
  rewrite Hcur, Hmax.
  destruct Hreach as [Hfresh|(a & b & Hab & Ha & Hb)].
  - pose proof (requestedScale_fresh scale this Hfresh) as Hreq.
    destruct Hfresh as [H1 H0].
    assert (n = 0)%nat as ->.
    { destruct n as [|n]; [reflexivity|].
      specialize (Hlt 0%nat (Nat.lt_0_succ n)).
      change (doubled 0 (_textureScale this)) with (_textureScale this) in Hlt.
      unfold spec_upgrades in Hlt. rewrite H1, H0 in Hlt. discriminate. }
    change (doubled 0 (_textureScale this)) with (_textureScale this).
    split; [now right|].
    rewrite H1. discriminate.
  - rewrite Ha, Hb in *. rewrite doubled_pow2 in *. split.
    + unfold spec_upgrades in Hstop. rewrite Hb, pow2_lt in Hstop.
      apply andb_false_iff in Hstop. destruct Hstop as [Hcap|Hreq];
        [left|now right].
      apply Nat.ltb_ge in Hcap.
      destruct Hinv' as [[_ H0]|(a' & b' & Hab' & Ha' & Hb')].
      * rewrite Hmax in H0. now apply pow2_nonzero in H0.
      * rewrite Hmax in Hb'. apply pow2_inj in Hb'.
        rewrite Hcur in Ha'. apply pow2_inj in Ha'.
        f_equal. lia.
    + rewrite pow2_strict_ne. intros Hne.
      destruct n as [|n].
      { rewrite Nat.add_0_r, Nat.eqb_refl in Hne. discriminate. }
      specialize (Hlt n (Nat.lt_succ_diag_r n)).
      rewrite doubled_pow2 in Hlt.
      unfold spec_upgrades in Hlt. apply andb_true_iff in Hlt.
      destruct Hlt as [_ Hreq].
      replace (a + S n)%nat with (S (a + n)) by lia.
      destruct (spec_requestedScale scale this) as [|r]; [discriminate|].
      now apply three_quarters.
Qed.

Lemma getTexture_scale_bounds_witness :
  geb (spec_requestedScale (Fixture.request 200) (Fixture.loaded 300 300))
      (mul (Num 0.75) (_textureScale Fixture.upgraded)) = true.
Proof.
  apply (getTexture_scale_bounds
           Fixture.loadString Fixture.calculateRotationCenter
           (Fixture.loaded 300 300) (Fixture.request 200) 12
           (Some (Fixture.bitmap 300 300)) Fixture.upgraded
           (ex_intro _ _ run_loaded)).
  - vm_compute. reflexivity.
  - reflexivity.
Defined.

(** X9.  A [getTexture] call repeated at the same scale changes nothing:
    it returns the same texture, leaves the skin as the first call left it
    and queues no further draw. *)
Theorem getTexture_again_changes_nothing
        (loadString : string -> SvgRenderer -> completion SvgRenderer)
        (calculateRotationCenter : SVGSkin -> point)
        (this : SVGSkin) (scale : option point) (fuel fuel' : nat)
        (texture : option ImageData) (this' : SVGSkin) :
  reachable loadString calculateRotationCenter this ->
  getTexture fuel scale this = Some (texture, this') ->
  getTexture (S fuel') scale this' = Some (texture, this').
Proof.
  intros Hreach Hget.
  apply reachable_scale_inv in Hreach.
  destruct (getTexture_inv _ _ _ _ _ Hreach Hget)
    as (n & [_ Hstop] & -> & _ & Hcur & Hmax & Ht & _ & _ & Hinv').
  unfold getTexture. cbn [getTexture_while].
  unfold spec_upgrades, spec_requestedScale, spec_scaleMax in Hstop.
  rewrite Hmax, Hcur, Hstop.
  destruct (scale_inv_pow2 this' Hinv') as [k Hk].
  rewrite Hcur in Hk. rewrite Hk, pow2_strict_ne, Nat.eqb_refl.
  cbn [negb]. now rewrite Ht.
Qed.

Lemma getTexture_again_changes_nothing_witness :
  getTexture 1 (Fixture.request 200) Fixture.upgraded
  = Some (Some (Fixture.bitmap 300 300), Fixture.upgraded).
Proof.
  apply (getTexture_again_changes_nothing
           Fixture.loadString Fixture.calculateRotationCenter
           (Fixture.loaded 300 300) (Fixture.request 200) 12 0
           (Some (Fixture.bitmap 300 300)) Fixture.upgraded
           (ex_intro _ _ run_loaded)).
  vm_compute. reflexivity.
Defined.

Lemma div_100_mono (a b : number) :
  leb a b = true -> leb (div a (Num 100)) (div b (Num 100)) = true.
Proof.
  destruct a as [|x], b as [|y]; try discriminate.
  unfold leb. change (div (Num x) (Num 100)) with (Num (x / 100)).
  change (div (Num y) (Num 100)) with (Num (y / 100)).
  rewrite !Qle_bool_iff. intros H.
  unfold Qdiv. apply Qmult_le_compat_r; [assumption|discriminate].
Qed.

Lemma Math_min_mono (a b : number) (c : Q) :
  leb a b = true -> leb (Math_min a (Num c)) (Math_min b (Num c)) = true.
Proof.
  destruct a as [|x], b as [|y]; try discriminate.
  unfold leb, Math_min. rewrite !Qle_bool_iff. intros H.
  destruct (Qle_bool x c) eqn:E1, (Qle_bool y c) eqn:E2;
    try apply Qle_bool_iff in E1; try apply Qle_bool_iff in E2;
    try apply Qle_bool_false in E1; try apply Qle_bool_false in E2; lra.
Qed.

(** X10.  From the same reachable state a larger request never selects a
    smaller scale. *)
Theorem getTexture_monotone_in_request
        (loadString : string -> SvgRenderer -> completion SvgRenderer)
        (calculateRotationCenter : SVGSkin -> point)
        (this : SVGSkin) (scale1 scale2 : option point) (fuel1 fuel2 : nat)
        (texture1 texture2 : option ImageData) (this1 this2 : SVGSkin) :
  reachable loadString calculateRotationCenter this ->
  leb (spec_scaleMax scale1) (spec_scaleMax scale2) = true ->
  getTexture fuel1 scale1 this = Some (texture1, this1) ->
  getTexture fuel2 scale2 this = Some (texture2, this2) ->
  leb (_textureScale this1) (_textureScale this2) = true.
Proof.
  intros Hreach Hle Hget1 Hget2.
  apply reachable_scale_inv in Hreach.
  destruct (getTexture_inv _ _ _ _ _ Hreach Hget1)
    as (n1 & [Hlt1 _] & _ & _ & -> & _).
  destruct (getTexture_inv _ _ _ _ _ Hreach Hget2)
    as (n2 & [_ Hstop2] & _ & _ & -> & _).
  destruct (scale_inv_pow2 this Hreach) as [a Ha].
  assert (Hm : exists m, _maxTextureScale this = Num m).
  { destruct Hreach as [[_ ->]|(a' & b' & _ & _ & ->)]; eexists; reflexivity. }
  destruct Hm as [m Hm].
  rewrite Ha, !doubled_pow2, pow2_le. apply Nat.leb_le.
  destruct (Nat.le_gt_cases n1 n2) as [H|H]; [lia|exfalso].
  specialize (Hlt1 n2 H).
  unfold spec_upgrades in *. apply andb_true_iff in Hlt1.
  destruct Hlt1 as [Hcap Hreq]. rewrite Hcap in Hstop2. cbn [andb] in Hstop2.
  assert (Hmono : leb (spec_requestedScale scale1 this)
                      (spec_requestedScale scale2 this) = true).
  { unfold spec_requestedScale. rewrite Hm.
    apply Math_min_mono. now apply div_100_mono. }
  unfold geb in *.
  rewrite (leb_trans _ _ _ Hreq Hmono) in Hstop2. discriminate.
Qed.

Lemma getTexture_monotone_in_request_witness :
  leb (_textureScale (Fixture.requested 140 (Fixture.loaded 300 300)))
      (_textureScale Fixture.upgraded) = true.
Proof.
  apply (getTexture_monotone_in_request
           Fixture.loadString Fixture.calculateRotationCenter
           (Fixture.loaded 300 300)
           (Fixture.request 140) (Fixture.request 200) 12 12
           (Some (Fixture.bitmap 300 300)) (Some (Fixture.bitmap 300 300))
           (Fixture.requested 140 (Fixture.loaded 300 300)) Fixture.upgraded
           (ex_intro _ _ run_loaded)).
  - reflexivity.
  - vm_compute. reflexivity.
  - vm_compute. reflexivity.
Defined.

(** ** A reload against a pending upgrade *)

Lemma fits_unique (M : Z) (n1 n2 : nat) :
  (forall m, (1 <= m)%nat -> ((M * 2 ^ Z.of_nat m <= 2048)%Z <-> (m <= n1)%nat)) ->
  (forall m, (1 <= m)%nat -> ((M * 2 ^ Z.of_nat m <= 2048)%Z <-> (m <= n2)%nat)) ->
  n1 = n2.
Proof.
  intros H1 H2.
  assert (Hle : forall a b,
             (forall m, (1 <= m)%nat ->
                        ((M * 2 ^ Z.of_nat m <= 2048)%Z <-> (m <= a)%nat)) ->
             (forall m, (1 <= m)%nat ->
                        ((M * 2 ^ Z.of_nat m <= 2048)%Z <-> (m <= b)%nat)) ->
             (a <= b)%nat).
  { intros a b Ha Hb. destruct a as [|a]; [lia|].
    apply Hb; [lia|]. apply Ha; lia. }
  apply Nat.le_antisymm; apply Hle; assumption.
Qed.

(** X11.  When the draw of a load and an upgrade draw for a scale other
    than 1 are both pending, the load wins in whichever order they finish:
    either way the texture and the silhouette end up holding the load's
    bitmap, the texture scale is 1 and the maximum is the one that bitmap
    gives. *)
Theorem reload_wins_over_pending_upgrade
        (calculateRotationCenter : SVGSkin -> point)
        (load upgrade : DrawRequest) (rotationCenter : option point)
        (newScale : number) (bitmap old : ImageData) (this : SVGSkin) :
  draw_onFinish load = SetSVG_onFinish rotationCenter ->
  draw_onFinish upgrade = GetTexture_onFinish newScale ->
  strict_ne (Num 1) newScale = true ->
  (0 < width bitmap)%Z ->
  (0 < height bitmap)%Z ->
  exists mid1 mid2 end1 end2,
    (forall fuel, (12 <= fuel)%nat ->
       finish calculateRotationCenter fuel load bitmap this = Some mid1
       /\ finish calculateRotationCenter fuel upgrade old mid1 = Some end1
       /\ finish calculateRotationCenter fuel upgrade old this = Some mid2
       /\ finish calculateRotationCenter fuel load bitmap mid2 = Some end2)
    /\ _texture end1 = Some bitmap /\ _texture end2 = Some bitmap
    /\ _silhouette end1 = Some bitmap /\ _silhouette end2 = Some bitmap
    /\ _textureScale end1 = Num 1 /\ _textureScale end2 = Num 1
    /\ _maxTextureScale end1 = _maxTextureScale end2.
Proof.
  intros Hload Hup Hne HW HH.
  destruct (setSVG_onFinish_scales calculateRotationCenter rotationCenter
              (paint bitmap this) HW HH)
    as (n1 & mid1 & Hrun1 & Hcur1 & Hmax1 & Hfit1).
  set (mid2 := getTexture_onFinish newScale (paint old this)).
  destruct (setSVG_onFinish_scales calculateRotationCenter rotationCenter
              (paint bitmap mid2) HW HH)
    as (n2 & end2 & Hrun2 & Hcur2 & Hmax2 & Hfit2).
  destruct (setSVG_onFinish_uploads _ _ _ _ _ (Hrun1 12%nat (le_n _)))
    as (_ & Ht1 & Hs1).
  destruct (setSVG_onFinish_uploads _ _ _ _ _ (Hrun2 12%nat (le_n _)))
    as (_ & Ht2 & Hs2).
  assert (Hstale : getTexture_onFinish newScale (paint old mid1)
                   = paint old mid1).
  { unfold getTexture_onFinish.
    change (_textureScale (paint old mid1)) with (_textureScale mid1).
    rewrite Hcur1. unfold strict_ne in Hne.
    apply negb_true_iff in Hne. now rewrite Hne. }
  exists mid1, mid2, (paint old mid1), end2.
  split; [|repeat split; try assumption].
  - intros fuel Hf. unfold finish. rewrite Hload, Hup, Hstale.
    repeat split; [now apply Hrun1|now apply Hrun2].
  - change (_maxTextureScale mid1 = _maxTextureScale end2).
    rewrite Hmax1, Hmax2. f_equal.
    exact (fits_unique _ _ _ Hfit1 Hfit2).
Qed.

Lemma reload_wins_over_pending_upgrade_witness :
  exists end1 end2,
    _texture end1 = Some (Fixture.bitmap 10 10)
    /\ _texture end2 = Some (Fixture.bitmap 10 10)
    /\ _maxTextureScale end1 = _maxTextureScale end2.
Proof.
  destruct (reload_wins_over_pending_upgrade
              Fixture.calculateRotationCenter
              Fixture.loadRequest Fixture.upgradeRequest None (Num 2)
              (Fixture.bitmap 10 10) (Fixture.bitmap 600 600)
              (set_pending Fixture.reloading [])
              eq_refl eq_refl eq_refl eq_refl eq_refl)
    as (mid1 & mid2 & end1 & end2 & _ & H1 & H2 & _ & _ & _ & _ & H3).
  exists end1, end2. repeat split; assumption.
Defined.

(** ** The order of two requests *)

Lemma spec_upgrades_mono (this : SVGSkin) (r1 r2 x : number) :
  leb r1 r2 = true ->
  spec_upgrades this r1 x = true -> spec_upgrades this r2 x = true.
Proof.
  unfold spec_upgrades, geb. intros Hle H.
  apply andb_true_iff in H. destruct H as [-> H]. cbn [andb].
  exact (leb_trans _ _ _ H Hle).
Qed.

Lemma spec_upgrades_max (this this' : SVGSkin) (r x : number) :
  _maxTextureScale this' = _maxTextureScale this ->
  spec_upgrades this' r x = spec_upgrades this r x.
Proof. unfold spec_upgrades. now intros ->. Qed.

Lemma requestedScale_mono (this : SVGSkin) (scale1 scale2 : option point) :
  scale_inv this ->
  leb (spec_scaleMax scale1) (spec_scaleMax scale2) = true ->
  leb (spec_requestedScale scale1 this) (spec_requestedScale scale2 this)
  = true.
Proof.
  intros Hinv Hle.
  assert (Hm : exists m, _maxTextureScale this = Num m).
  { destruct Hinv as [[_ ->]|(a' & b' & _ & _ & ->)]; eexists; reflexivity. }
  destruct Hm as [m Hm]. unfold spec_requestedScale. rewrite Hm.
  apply Math_min_mono. now apply div_100_mono.
Qed.

Lemma settles_mono (this : SVGSkin) (r1 r2 : number) (n1 n2 : nat) :
  leb r1 r2 = true ->
  settles this r1 n1 -> settles this r2 n2 -> (n1 <= n2)%nat.
Proof.
  intros Hle [Hlt1 _] [_ Hstop2].
  destruct (Nat.le_gt_cases n1 n2) as [H|H]; [assumption|exfalso].
  specialize (Hlt1 n2 H).
  rewrite (spec_upgrades_mono _ _ _ _ Hle Hlt1) in Hstop2. discriminate.
Qed.

(** X12.  Two requests made one after the other, in either order, leave
    the scale the larger of them selects on its own. *)
Theorem getTexture_order_is_irrelevant
        (loadString : string -> SvgRenderer -> completion SvgRenderer)
        (calculateRotationCenter : SVGSkin -> point)
        (this : SVGSkin) (small large : option point)
        (fuel fuel1 fuel2 : nat) (texture : option ImageData)
        (alone end1 end2 : SVGSkin) :
  reachable loadString calculateRotationCenter this ->
  leb (spec_scaleMax small) (spec_scaleMax large) = true ->
  getTexture fuel large this = Some (texture, alone) ->
  getTexture_all fuel1 [small; large] this = Some end1 ->
  getTexture_all fuel2 [large; small] this = Some end2 ->
  _textureScale end1 = _textureScale alone
  /\ _textureScale end2 = _textureScale alone.
Proof.
  intros Hreach Hle Halone H1 H2.
  apply reachable_scale_inv in Hreach.
  pose proof (requestedScale_mono this small large Hreach Hle) as Hreq.
  destruct (scale_inv_pow2 this Hreach) as [a Ha].
  destruct (getTexture_inv _ _ _ _ _ Hreach Halone)
    as (n & Hset & _ & _ & Hcur & _).
  rewrite Hcur, Ha, doubled_pow2. clear Hcur Halone.
  split.
  - cbn [getTexture_all] in H1.
    destruct (getTexture fuel1 small this) as [[t1 mid]|] eqn:E1;
      [|discriminate].
    destruct (getTexture fuel1 large mid) as [[t2 last]|] eqn:E2;
      [|discriminate].
    injection H1 as ->.
    destruct (getTexture_inv _ _ _ _ _ Hreach E1)
      as (n1 & Hset1 & _ & _ & Hc1 & Hm1 & _ & _ & _ & Hinv1).
    destruct (getTexture_inv _ _ _ _ _ Hinv1 E2)
      as (n2 & Hset2 & _ & _ & Hc2 & _).
    pose proof (settles_mono _ _ _ _ _ Hreq Hset1 Hset) as Hn.
    rewrite Ha, doubled_pow2 in Hc1.
    assert (Hrest : settles mid (spec_requestedScale large mid) (n - n1)).
    { unfold spec_requestedScale. rewrite Hm1.
      fold (spec_requestedScale large this). unfold settles. rewrite Hc1.
      destruct Hset as [Hlt Hstop]. rewrite Ha in Hlt, Hstop. split.
      - intros m Hm. rewrite (spec_upgrades_max _ _ _ _ Hm1), doubled_pow2.
        specialize (Hlt (n1 + m)%nat). rewrite doubled_pow2 in Hlt.
        rewrite <- Nat.add_assoc. apply Hlt. lia.
      - rewrite (spec_upgrades_max _ _ _ _ Hm1), doubled_pow2.
        rewrite doubled_pow2 in Hstop.
        now replace (a + n1 + (n - n1))%nat with (a + n)%nat by lia. }
    rewrite (settles_unique _ _ _ _ Hset2 Hrest) in Hc2.
    rewrite Hc2, Hc1, doubled_pow2. f_equal. lia.
  - cbn [getTexture_all] in H2.
    destruct (getTexture fuel2 large this) as [[t1 mid]|] eqn:E1;
      [|discriminate].
    destruct (getTexture fuel2 small mid) as [[t2 last]|] eqn:E2;
      [|discriminate].
    injection H2 as ->.
    destruct (getTexture_inv _ _ _ _ _ Hreach E1)
      as (n1 & Hset1 & _ & _ & Hc1 & Hm1 & _ & _ & _ & Hinv1).
    destruct (getTexture_inv _ _ _ _ _ Hinv1 E2)
      as (n2 & Hset2 & _ & _ & Hc2 & _).
    rewrite (settles_unique _ _ _ _ Hset1 Hset) in Hc1.
    rewrite Ha, doubled_pow2 in Hc1.
    assert (Hrest : settles mid (spec_requestedScale small mid) 0).
    { split; [intros; lia|].
      change (doubled 0 (_textureScale mid)) with (_textureScale mid).
      unfold spec_requestedScale. rewrite Hm1.
      fold (spec_requestedScale small this).
      rewrite (spec_upgrades_max _ _ _ _ Hm1), Hc1.
      destruct Hset as [_ Hstop]. rewrite Ha, doubled_pow2 in Hstop.
      destruct (spec_upgrades this (spec_requestedScale small this)
                              (pow2 (a + n))) eqn:E; [|reflexivity].
      rewrite (spec_upgrades_mono _ _ _ _ Hreq E) in Hstop. discriminate. }
    rewrite (settles_unique _ _ _ _ Hset2 Hrest) in Hc2.
    now rewrite Hc2.
Qed.

Lemma getTexture_order_is_irrelevant_witness :
  _textureScale (Fixture.requested 200
                   (Fixture.requested 140 (Fixture.loaded 300 300)))
  = _textureScale Fixture.upgraded
  /\ _textureScale (Fixture.requested 140 Fixture.upgraded)
     = _textureScale Fixture.upgraded.
Proof.
  apply (getTexture_order_is_irrelevant
           Fixture.loadString Fixture.calculateRotationCenter
           (Fixture.loaded 300 300)
           (Fixture.request 140) (Fixture.request 200) 12 12 12
           (Some (Fixture.bitmap 300 300)) Fixture.upgraded
           (Fixture.requested 200
              (Fixture.requested 140 (Fixture.loaded 300 300)))
           (Fixture.requested 140 Fixture.upgraded)
           (ex_intro _ _ run_loaded)).
  - reflexivity.
  - vm_compute. reflexivity.
  - vm_compute. reflexivity.
  - vm_compute. reflexivity.
Defined.

(** ** What the completion of a load does, in order *)




(** ** NaN coordinates *)

(** X14.  A [setRotationCenter] call with a NaN coordinate always applies,
    also when it repeats the stored coordinates: every such call reaches
    the base class. *)
Theorem setRotationCenter_NaN_always_applies (x y : number) (this : SVGSkin) :
  x = NaN \/ y = NaN ->
  _rawRotationCenter (setRotationCenter x y this) = (x, y)
  /\ effects (setRotationCenter x y this)
     = Super_setRotationCenter (sub x (fst (_viewOffset this)))
                               (sub y (snd (_viewOffset this)))
       :: effects this
  /\ effects (setRotationCenter x y (setRotationCenter x y this))
     = Super_setRotationCenter (sub x (fst (_viewOffset this)))
                               (sub y (snd (_viewOffset this)))
       :: Super_setRotationCenter (sub x (fst (_viewOffset this)))
                                  (sub y (snd (_viewOffset this)))
       :: effects this.
Proof.
  intros Hnan.
  assert (Happlies : forall s : SVGSkin,
             setRotationCenter x y s
             = Skin_setRotationCenter (sub x (fst (_viewOffset s)))
                                      (sub y (snd (_viewOffset s)))
                                      (set_rawRotationCenter s (x, y))).
  { intros s. unfold setRotationCenter.
    assert (strict_ne x (fst (_rawRotationCenter s))
            || strict_ne y (snd (_rawRotationCenter s)) = true) as ->.
    { destruct Hnan as [-> | ->]; [reflexivity|].
      apply orb_true_iff. right. reflexivity. }
    reflexivity. }
  rewrite !Happlies. repeat split.
Qed.

Lemma setRotationCenter_NaN_always_applies_witness :
  effects (setRotationCenter NaN (Num 30)
             (setRotationCenter NaN (Num 30) Fixture.loading))
  = Super_setRotationCenter NaN (sub (Num 30) (Num 7))
    :: Super_setRotationCenter NaN (sub (Num 30) (Num 7))
    :: effects Fixture.loading.
Proof.
  exact (proj2 (proj2 (setRotationCenter_NaN_always_applies
                         NaN (Num 30) Fixture.loading (or_introl eq_refl)))).
Defined.
